(** * Thrive: the Ogre engine bootstrap ([src/ogre/ogre_engine.cpp])

    A shallow embedding of [OgreEngine] and of its private
    [Implementation] struct.  Calls into the rendering backend, the input
    library and the operating system are recorded, in program order, in an
    event trace carried by the world; the members of [Implementation] are
    a record of pointers.  The base class [Engine] and the [Game]
    singleton live in other translation units and are modelled from the
    specification. *)

From Stdlib Require Import List ZArith NArith QArith String Bool Lia.
From Stdlib Require Import DecimalString.
From Stdlib Require DecimalN DecimalPos.
From Stdlib Require Import Permutation Sorted.
Import ListNotations.

Local Open Scope string_scope.
Local Open Scope N_scope.
Local Open Scope list_scope.

(** ** Pointers and objects *)

(** A raw or smart pointer is the address it holds; address 0 is the null
    pointer. *)
Definition Ptr := N.
Definition nullptr : Ptr := 0.

(** The dynamic type of a System object. *)
Inductive SystemKind :=
| KeyboardSystem
| OgreAddSceneNodeSystem
| OgreUpdateSceneNodeSystem
| OgreCameraSystem
| OgreLightSystem
| SkySystem
| OgreEntitySystem
| OgreViewportSystem
| OgreRemoveSceneNodeSystem
| RenderSystem.

(** A [std::shared_ptr] to a System: the static type and the address. *)
Record SystemPtr := mkSystemPtr {
  sys_kind : SystemKind;
  sys_addr : Ptr
}.

(** [Ogre::ConfigFile]: what the section iterator yields, a sequence of
    (section name, settings) where the settings are (key, value) pairs as
    the [SettingsMultiMap] iterates them. *)
Definition SettingsMultiMap := list (string * string).
Definition ConfigFile := list (string * SettingsMultiMap).

(** An entry of the backend's resource group manager, in the argument
    order of [addResourceLocation(location, type, group)]. *)
Record ResourceLocation := mkResourceLocation {
  rl_location : string;
  rl_type : string;
  rl_group : string
}.

(** ** Lifecycle of the base class *)

Inductive Lifecycle := Uninitialized | Initialized | Running | ShutDown.

(** ** Events *)

Inductive Event :=
| EvNewSystem (s : SystemPtr)
| EvNewLogManager (logManager : Ptr)
| EvCreateLog (logManager : Ptr) (name : string)
    (defaultLog debuggerOutput suppressFileOutput : bool)
| EvNewRoot (plugins : string) (root : Ptr)
| EvDeleteRoot (root : Ptr)
| EvConfigLoad (file : string)
| EvAddResourceLocation (location type group : string)
| EvRestoreConfig (ok : bool)
| EvShowConfigDialog (ok : bool)
| EvRootInitialise (autoCreate : bool) (title : string) (window : Ptr)
| EvAddWindowEventListener (window : Ptr)
| EvSetDefaultNumMipmaps (n : Z)
| EvInitialiseAllResourceGroups
| EvCreateSceneManager (type : string) (sceneManager : Ptr)
| EvSetAmbientLight (sceneManager : Ptr) (r g b : Q)
| EvGetCustomAttribute (window : Ptr) (name : string)
| EvCreateInputSystem (params : list (string * string)) (inputManager : Ptr)
| EvDestroyInputSystem (inputManager : Ptr)
| EvWindowDestroy (window : Ptr)
| EvAddSystem (s : SystemPtr)
| EvSystemInit (s : SystemPtr)
| EvSystemUpdate (s : SystemPtr) (milliSeconds : Z)
| EvSystemShutdown (s : SystemPtr)
| EvMessagePump
| EvWindowClosing (window : Ptr)
| EvGameQuit.

(** ** The world *)

(** [struct OgreEngine::Implementation], member by member. *)
Record Implementation := mkImplementation {
  m_root : Ptr;
  m_inputManager : Ptr;
  m_keyboardSystem : SystemPtr;
  m_sceneManager : Ptr;
  m_viewportSystem : SystemPtr;
  m_window : Ptr
}.

(** Modelled from the spec: the state of the base class [Engine]
    (engine.cpp is not part of the sources): the lifecycle state of section
    4.1 and the ordered sequence of registered Systems of section 3. *)
Record EngineBase := mkEngineBase {
  lifecycle : Lifecycle;
  systems : list SystemPtr
}.

(** What lies outside the engine object: the answers of the backend's
    configuration steps, the parsed resource manifest, the native handle
    of the window, the close notifications the operating system has
    queued, the allocator, the registries kept by the backend, and the
    function-local static [logManager] of [setupLog]. *)
Record Host := mkHost {
  restoreConfig_ok : bool;
  showConfigDialog_ok : bool;
  resources_cfg : ConfigFile;
  native_handle : N;
  pending_close : list Ptr;
  next_addr : N;
  resource_locations : list ResourceLocation;
  window_listeners : list Ptr;
  static_logManager : Ptr
}.

Definition host_with_config (restore dialog : bool) (h : Host) : Host :=
  mkHost restore dialog (resources_cfg h) (native_handle h)
    (pending_close h) (next_addr h) (resource_locations h)
    (window_listeners h) (static_logManager h).

Definition host_with_pending_close (q : list Ptr) (h : Host) : Host :=
  mkHost (restoreConfig_ok h) (showConfigDialog_ok h) (resources_cfg h)
    (native_handle h) q (next_addr h) (resource_locations h)
    (window_listeners h) (static_logManager h).

Definition host_with_next_addr (a : N) (h : Host) : Host :=
  mkHost (restoreConfig_ok h) (showConfigDialog_ok h) (resources_cfg h)
    (native_handle h) (pending_close h) a (resource_locations h)
    (window_listeners h) (static_logManager h).

Definition host_with_resource_locations (l : list ResourceLocation)
    (h : Host) : Host :=
  mkHost (restoreConfig_ok h) (showConfigDialog_ok h) (resources_cfg h)
    (native_handle h) (pending_close h) (next_addr h) l
    (window_listeners h) (static_logManager h).

Definition host_with_window_listeners (l : list Ptr) (h : Host) : Host :=
  mkHost (restoreConfig_ok h) (showConfigDialog_ok h) (resources_cfg h)
    (native_handle h) (pending_close h) (next_addr h)
    (resource_locations h) l (static_logManager h).

Definition host_with_static_logManager (p : Ptr) (h : Host) : Host :=
  mkHost (restoreConfig_ok h) (showConfigDialog_ok h) (resources_cfg h)
    (native_handle h) (pending_close h) (next_addr h)
    (resource_locations h) (window_listeners h) p.

Record World := mkWorld {
  impl : Implementation;
  base : EngineBase;
  game_quit : bool;
  host : Host;
  trace : list Event
}.

(** ** Outcomes and the command monad *)

Inductive Failure := LifecycleViolation | NullDereference.

(** A command returns, or the process leaves through [exit], or it dies
    on a fatal error. *)
Inductive Outcome (A : Type) :=
| Returns (a : A) (w : World)
| Exits (code : Z) (w : World)
| Aborts (f : Failure) (w : World).

Arguments Returns {A} a w.
Arguments Exits {A} code w.
Arguments Aborts {A} f w.

Definition M (A : Type) := World -> Outcome A.

Definition ret {A} (a : A) : M A := fun w => Returns a w.

Definition bind {A B} (c : M A) (k : A -> M B) : M B :=
  fun w =>
    match c w with
    | Returns a w' => k a w'
    | Exits code w' => Exits code w'
    | Aborts f w' => Aborts f w'
    end.

Notation "x <- c1 ;; c2" := (bind c1 (fun x => c2))
  (at level 61, c1 at next level, right associativity).
Notation "c1 ;; c2" := (bind c1 (fun _ => c2))
  (at level 61, right associativity).

Definition world_of {A} (o : Outcome A) : World :=
  match o with
  | Returns _ w => w
  | Exits _ w => w
  | Aborts _ w => w
  end.

Definition gets {A} (f : World -> A) : M A := fun w => Returns (f w) w.

Definition abort {A} (f : Failure) : M A := fun w => Aborts f w.

Definition EXIT_SUCCESS : Z := 0%Z.

Definition exit {A} (code : Z) : M A := fun w => Exits code w.

Definition emit (e : Event) : M unit :=
  fun w => Returns tt (mkWorld (impl w) (base w) (game_quit w) (host w)
                               (trace w ++ [e])).

Definition set_impl (i : Implementation) : M unit :=
  fun w => Returns tt (mkWorld i (base w) (game_quit w) (host w) (trace w)).

Definition set_base (b : EngineBase) : M unit :=
  fun w => Returns tt (mkWorld (impl w) b (game_quit w) (host w) (trace w)).

Definition set_host (h : Host) : M unit :=
  fun w => Returns tt (mkWorld (impl w) (base w) (game_quit w) h (trace w)).

Definition set_game_quit (q : bool) : M unit :=
  fun w => Returns tt (mkWorld (impl w) (base w) q (host w) (trace w)).

(** The events a command added: traces only grow at the end. *)
Definition new_events (w w' : World) : list Event :=
  skipn (List.length (trace w)) (trace w').

(** A range-based [for] loop. *)
Fixpoint forEach {A} (body : A -> M unit) (l : list A) : M unit :=
  match l with
  | [] => ret tt
  | x :: rest => body x ;; forEach body rest
  end.

(** [p->...]: following a null pointer is fatal. *)
Definition deref (p : Ptr) : M unit :=
  if p =? nullptr then abort NullDereference else ret tt.

(** [new T]: a fresh address, never null. *)
Definition alloc : M Ptr :=
  fun w =>
    let h := host w in
    let a := N.pos (N.succ_pos (next_addr h)) in
    Returns a
      (mkWorld (impl w) (base w) (game_quit w) (host_with_next_addr a h)
         (trace w)).

(** [new S()] and [std::make_shared<S>()]. *)
Definition new_system (k : SystemKind) : M SystemPtr :=
  a <- alloc ;;
  emit (EvNewSystem (mkSystemPtr k a)) ;;
  ret (mkSystemPtr k a).

(** Replacing one member of [Implementation]. *)
Definition set_m_root (p : Ptr) : M unit :=
  fun w =>
    let i := impl w in
    set_impl (mkImplementation p (m_inputManager i) (m_keyboardSystem i)
                (m_sceneManager i) (m_viewportSystem i) (m_window i)) w.

Definition set_m_inputManager (p : Ptr) : M unit :=
  fun w =>
    let i := impl w in
    set_impl (mkImplementation (m_root i) p (m_keyboardSystem i)
                (m_sceneManager i) (m_viewportSystem i) (m_window i)) w.

Definition set_m_sceneManager (p : Ptr) : M unit :=
  fun w =>
    let i := impl w in
    set_impl (mkImplementation (m_root i) (m_inputManager i)
                (m_keyboardSystem i) p (m_viewportSystem i) (m_window i)) w.

Definition set_m_window (p : Ptr) : M unit :=
  fun w =>
    let i := impl w in
    set_impl (mkImplementation (m_root i) (m_inputManager i)
                (m_keyboardSystem i) (m_sceneManager i) (m_viewportSystem i)
                p) w.

(** ** The backend, the input library and the window system *)

(** [Ogre::ResourceGroupManager::addResourceLocation]. *)
Definition addResourceLocation (location type group : string) : M unit :=
  emit (EvAddResourceLocation location type group) ;;
  h <- gets host ;;
  set_host (host_with_resource_locations
              (resource_locations h
                 ++ [mkResourceLocation location type group])
              h).

(** [Ogre::WindowEventUtilities::addWindowEventListener]: the backend
    keeps one entry per registration, keyed by the window. *)
Definition addWindowEventListener (window : Ptr) : M unit :=
  emit (EvAddWindowEventListener window) ;;
  h <- gets host ;;
  set_host (host_with_window_listeners (window_listeners h ++ [window]) h).

(** Taking the queued close notifications off the queue. *)
Definition take_pending_close : M (list Ptr) :=
  h <- gets host ;;
  set_host (host_with_pending_close [] h) ;;
  ret (pending_close h).





(** ** The Game singleton *)

(** Modelled from the spec: [Game::quit] (game.cpp is not part of the
    sources) signals process-level quit: it sets the process-wide quit
    flag (sections 5 and 8). *)
Definition Game_quit : M unit :=
  emit EvGameQuit ;;
  set_game_quit true.

Section Build.

(** Whether [_DEBUG] is defined at compile time. *)
Variable DEBUG : bool.

(** The spec leaves the order of System teardown open ("in reverse or
    matching order"). *)
Variable teardown_reversed : bool.

Definition RESOURCES_CFG : string :=
  if DEBUG then "resources_d.cfg" else "resources.cfg".

Definition PLUGINS_CFG : string :=
  if DEBUG then "plugins_d.cfg" else "plugins.cfg".

(** ** The base class Engine *)

(** Modelled from the spec: [Engine::addSystem] appends to the ordered
    sequence of Systems; registration is closed once [init] has been
    called (sections 3 and 8), so a later addition is not registered. *)
Definition Engine_addSystem (s : SystemPtr) : M unit :=
  emit (EvAddSystem s) ;;
  b <- gets base ;;
  match lifecycle b with
  | Uninitialized => set_base (mkEngineBase (lifecycle b) (systems b ++ [s]))
  | _ => ret tt
  end.

(** Modelled from the spec: [Engine::init] is valid only from
    [Uninitialized], calls [init] on each System in registration order and
    moves to [Initialized] (sections 3 and 4.1); out of order it is
    fatal. *)
Definition Engine_init : M unit :=
  b <- gets base ;;
  match lifecycle b with
  | Uninitialized =>
      forEach (fun s => emit (EvSystemInit s)) (systems b) ;;
      set_base (mkEngineBase Initialized (systems b))
  | _ => abort LifecycleViolation
  end.

(** Modelled from the spec: [Engine::update] is valid only from
    [Initialized] or [Running], invokes every System's [update] with the
    elapsed time in registration order and moves to [Running]
    (section 4.1). *)
Definition Engine_update (milliSeconds : Z) : M unit :=
  b <- gets base ;;
  match lifecycle b with
  | Initialized | Running =>
      forEach (fun s => emit (EvSystemUpdate s milliSeconds)) (systems b) ;;
      set_base (mkEngineBase Running (systems b))
  | _ => abort LifecycleViolation
  end.

Definition teardown_order (l : list SystemPtr) : list SystemPtr :=
  if teardown_reversed then rev l else l.

(** Modelled from the spec: [Engine::shutdown] is valid only from
    [Running] or [Initialized], calls each System's [shutdown] and moves
    to [ShutDown] (sections 3 and 4.1). *)
Definition Engine_shutdown : M unit :=
  b <- gets base ;;
  match lifecycle b with
  | Initialized | Running =>
      forEach (fun s => emit (EvSystemShutdown s))
              (teardown_order (systems b)) ;;
      set_base (mkEngineBase ShutDown (systems b))
  | _ => abort LifecycleViolation
  end.

(** ** OgreEngine::Implementation *)

(** The constructor's member initialisers, in declaration order of the
    members they initialise; the other members take their default
    initialisers. *)
Definition Implementation_ctor : M unit :=
  k <- new_system KeyboardSystem ;;
  v <- new_system OgreViewportSystem ;;
  set_impl (mkImplementation nullptr nullptr k nullptr v nullptr).

Definition loadConfig : M unit :=
  root <- gets (fun w => m_root (impl w)) ;;
  deref root ;;
  h <- gets host ;;
  emit (EvRestoreConfig (restoreConfig_ok h)) ;;
  if restoreConfig_ok h then ret tt
  else
    emit (EvShowConfigDialog (showConfigDialog_ok h)) ;;
    if showConfigDialog_ok h then ret tt
    else exit EXIT_SUCCESS.

Definition loadSection (sectionName : string)
    (sectionContent : SettingsMultiMap) : M unit :=
  forEach (fun setting : string * string =>
             let resourceType := fst setting in
             let resourceLocation := snd setting in
             addResourceLocation resourceLocation resourceType sectionName)
          sectionContent.

(** The [while] loop over the section iterator. *)
Fixpoint loadSections (sectionIter : ConfigFile) : M unit :=
  match sectionIter with
  | [] => ret tt
  | (sectionName, sectionContent) :: more =>
      loadSection sectionName sectionContent ;;
      loadSections more
  end.

Definition loadResources : M unit :=
  emit (EvConfigLoad RESOURCES_CFG) ;;
  config <- gets (fun w => resources_cfg (host w)) ;;
  loadSections config.

Definition HANDLE_NAME : string := "WINDOW".

(** [boost::lexical_cast<std::string>] of an unsigned integer. *)
Definition lexical_cast (n : N) : string :=
  NilZero.string_of_uint (N.to_uint n).

Definition setupInputManager : M unit :=
  window <- gets (fun w => m_window (impl w)) ;;
  deref window ;;
  emit (EvGetCustomAttribute window HANDLE_NAME) ;;
  windowHandle <- gets (fun w => native_handle (host w)) ;;
  let parameters := [(HANDLE_NAME, lexical_cast windowHandle)] in
  im <- alloc ;;
  emit (EvCreateInputSystem parameters im) ;;
  set_m_inputManager im.

Definition setupLighting : M unit :=
  sm <- gets (fun w => m_sceneManager (impl w)) ;;
  deref sm ;;
  emit (EvSetAmbientLight sm (1 # 2) (1 # 2) (1 # 2)).

(** The static [logManager] is made the first time control passes its
    declaration and kept for the life of the process. *)
Definition setupLog : M unit :=
  made <- gets (fun w => static_logManager (host w)) ;;
  (if made =? nullptr
   then p <- alloc ;;
        emit (EvNewLogManager p) ;;
        h <- gets host ;;
        set_host (host_with_static_logManager p h)
   else ret tt) ;;
  logManager <- gets (fun w => static_logManager (host w)) ;;
  emit (EvCreateLog logManager "default" true false false).

Definition setupSceneManager : M unit :=
  root <- gets (fun w => m_root (impl w)) ;;
  deref root ;;
  sm <- alloc ;;
  emit (EvCreateSceneManager "DefaultSceneManager" sm) ;;
  set_m_sceneManager sm.

Definition shutdownInputManager : M unit :=
  im <- gets (fun w => m_inputManager (impl w)) ;;
  if im =? nullptr then ret tt
  else
    emit (EvDestroyInputSystem im) ;;
    set_m_inputManager nullptr.

Definition windowClosing (window : Ptr) : M bool :=
  own <- gets (fun w => m_window (impl w)) ;;
  (if window =? own then Game_quit else ret tt) ;;
  ret true.

(** [Ogre::WindowEventUtilities::messagePump]: every queued close
    notification is handed to each listener registered for its window. *)
Definition deliverClose (window : Ptr) : M unit :=
  listeners <- gets (fun w => window_listeners (host w)) ;;
  forEach (fun registered : Ptr =>
             if registered =? window
             then emit (EvWindowClosing window) ;;
                  _ <- windowClosing window ;;
                  ret tt
             else ret tt)
          listeners.

Definition messagePump : M unit :=
  emit EvMessagePump ;;
  queue <- take_pending_close ;;
  forEach deliverClose queue.

(** [std::unique_ptr::reset]: the new pointer is stored, then the old
    object, if any, is deleted. *)
Definition m_root_reset (p : Ptr) : M unit :=
  old <- gets (fun w => m_root (impl w)) ;;
  set_m_root p ;;
  if old =? nullptr then ret tt else emit (EvDeleteRoot old).

(** ** OgreEngine *)

(** Modelled from the spec: the constructor of the base class (not part
    of the sources) leaves the engine [Uninitialized] with no System
    registered. *)
Definition Engine_ctor : M unit :=
  set_base (mkEngineBase Uninitialized []).

Definition OgreEngine_ctor : M unit :=
  Engine_ctor ;;
  Implementation_ctor.

Definition addNewSystem (k : SystemKind) : M unit :=
  s <- new_system k ;;
  Engine_addSystem s.

Definition init : M unit :=
  setupLog ;;
  root <- alloc ;;
  emit (EvNewRoot PLUGINS_CFG root) ;;
  m_root_reset root ;;
  loadResources ;;
  loadConfig ;;
  root <- gets (fun w => m_root (impl w)) ;;
  deref root ;;
  window <- alloc ;;
  emit (EvRootInitialise true "Thrive" window) ;;
  set_m_window window ;;
  window <- gets (fun w => m_window (impl w)) ;;
  addWindowEventListener window ;;
  emit (EvSetDefaultNumMipmaps 5) ;;
  emit EvInitialiseAllResourceGroups ;;
  setupSceneManager ;;
  setupLighting ;;
  setupInputManager ;;
  keyboard <- gets (fun w => m_keyboardSystem (impl w)) ;;
  Engine_addSystem keyboard ;;
  addNewSystem OgreAddSceneNodeSystem ;;
  addNewSystem OgreUpdateSceneNodeSystem ;;
  addNewSystem OgreCameraSystem ;;
  addNewSystem OgreLightSystem ;;
  addNewSystem SkySystem ;;
  addNewSystem OgreEntitySystem ;;
  viewport <- gets (fun w => m_viewportSystem (impl w)) ;;
  Engine_addSystem viewport ;;
  addNewSystem OgreRemoveSceneNodeSystem ;;
  addNewSystem RenderSystem ;;
  Engine_init.

Definition inputManager (w : World) : Ptr := m_inputManager (impl w).

Definition keyboardSystem (w : World) : SystemPtr := m_keyboardSystem (impl w).

Definition root (w : World) : Ptr := m_root (impl w).

Definition sceneManager (w : World) : Ptr := m_sceneManager (impl w).

Definition shutdown : M unit :=
  Engine_shutdown ;;
  shutdownInputManager ;;
  window <- gets (fun w => m_window (impl w)) ;;
  deref window ;;
  emit (EvWindowDestroy window) ;;
  m_root_reset nullptr.

Definition update (milliSeconds : Z) : M unit :=
  messagePump ;;
  Engine_update milliSeconds.

Definition viewportSystem (w : World) : SystemPtr :=
  m_viewportSystem (impl w).

Definition window (w : World) : Ptr := m_window (impl w).

(** [Ogre::WindowEventUtilities::removeWindowEventListener]: the first
    registration of the listener for the window, if there is one, is
    erased.  The call shows in the backend's registry, not in the
    trace. *)
Fixpoint erase_first (window : Ptr) (listeners : list Ptr) : list Ptr :=
  match listeners with
  | [] => []
  | registered :: more =>
      if registered =? window then more
      else registered :: erase_first window more
  end.

Definition removeWindowEventListener (window : Ptr) : M unit :=
  h <- gets host ;;
  set_host (host_with_window_listeners
              (erase_first window (window_listeners h)) h).

(** [~Implementation]: the body, then the members in reverse order of
    declaration.  Of the members only [m_root], a [std::unique_ptr],
    deletes what it points to; the raw pointers are dropped, and the two
    [std::shared_ptr] members give up their share of the Systems. *)
Definition Implementation_dtor : M unit :=
  window <- gets (fun w => m_window (impl w)) ;;
  removeWindowEventListener window ;;
  m_root_reset nullptr.

(** [OgreEngine::~OgreEngine] has an empty body; it destroys [m_impl]. *)
Definition OgreEngine_dtor : M unit := Implementation_dtor.

(** ** What the claims speak about *)

(** The registrations a resource manifest asks for, section by section
    and setting by setting. *)
Definition section_locations (entry : string * SettingsMultiMap)
  : list ResourceLocation :=
  map (fun setting => mkResourceLocation (snd setting) (fst setting)
                        (fst entry))
      (snd entry).

Definition manifest_locations (config : ConfigFile) : list ResourceLocation :=
  flat_map section_locations config.

Definition location_event (r : ResourceLocation) : Event :=
  EvAddResourceLocation (rl_location r) (rl_type r) (rl_group r).

(** The order in which [init] hands the Systems to [addSystem]. *)
Definition pipeline_order : list SystemKind :=
  [ KeyboardSystem; OgreAddSceneNodeSystem; OgreUpdateSceneNodeSystem;
    OgreCameraSystem; OgreLightSystem; SkySystem; OgreEntitySystem;
    OgreViewportSystem; OgreRemoveSceneNodeSystem; RenderSystem ].

(** [a] is registered somewhere before [b]. *)
Definition registered_before (a b : SystemKind) (l : list SystemPtr) : Prop :=
  exists l1 l2 l3, map sys_kind l = l1 ++ a :: l2 ++ b :: l3.

(** The display configuration resolves: the persisted choice is
    restored, or else the dialog is confirmed. *)
Definition config_resolves (h : Host) : bool :=
  restoreConfig_ok h || showConfigDialog_ok h.

(** The events of [loadConfig] when it returns. *)
Definition config_events (h : Host) : list Event :=
  if restoreConfig_ok h then [EvRestoreConfig true]
  else [EvRestoreConfig false; EvShowConfigDialog (showConfigDialog_ok h)].

(** The [k]-th address the allocator hands out after [a]. *)
Definition fresh (a : N) (k : nat) : Ptr :=
  Nat.iter k (fun x => N.pos (N.succ_pos x)) a.

(** What [setupLog] records on host [h], and where it leaves the
    allocator. *)
Definition setupLog_events (h : Host) : list Event :=
  if static_logManager h =? nullptr
  then [ EvNewLogManager (fresh (next_addr h) 1);
         EvCreateLog (fresh (next_addr h) 1) "default" true false false ]
  else [ EvCreateLog (static_logManager h) "default" true false false ].

Definition after_setupLog (h : Host) : N :=
  if static_logManager h =? nullptr then fresh (next_addr h) 1
  else next_addr h.

(** The setup steps of [init], from the log to the input manager, for an
    engine whose root pointer was [old], on host [h]. *)
Definition init_setup_events (old : Ptr) (h : Host) : list Event :=
  let a := after_setupLog h in
  setupLog_events h
  ++ [ EvNewRoot PLUGINS_CFG (fresh a 1) ]
  ++ (if old =? nullptr then [] else [EvDeleteRoot old])
  ++ [ EvConfigLoad RESOURCES_CFG ]
  ++ map location_event (manifest_locations (resources_cfg h))
  ++ config_events h
  ++ [ EvRootInitialise true "Thrive" (fresh a 2);
       EvAddWindowEventListener (fresh a 2);
       EvSetDefaultNumMipmaps 5;
       EvInitialiseAllResourceGroups;
       EvCreateSceneManager "DefaultSceneManager" (fresh a 3);
       EvSetAmbientLight (fresh a 3) (1 # 2) (1 # 2) (1 # 2);
       EvGetCustomAttribute (fresh a 2) HANDLE_NAME;
       EvCreateInputSystem [(HANDLE_NAME, lexical_cast (native_handle h))]
         (fresh a 4) ].

(** The Systems [init] hands to [addSystem], in call order: the two
    members made by the constructor and eight made on the spot. *)
Definition init_systems (keyboard viewport : SystemPtr) (a : N)
  : list SystemPtr :=
  [ keyboard;
    mkSystemPtr OgreAddSceneNodeSystem (fresh a 5);
    mkSystemPtr OgreUpdateSceneNodeSystem (fresh a 6);
    mkSystemPtr OgreCameraSystem (fresh a 7);
    mkSystemPtr OgreLightSystem (fresh a 8);
    mkSystemPtr SkySystem (fresh a 9);
    mkSystemPtr OgreEntitySystem (fresh a 10);
    viewport;
    mkSystemPtr OgreRemoveSceneNodeSystem (fresh a 11);
    mkSystemPtr RenderSystem (fresh a 12) ].

(** The registration steps of [init]: every System is handed to
    [addSystem]; the eight made on the spot are constructed just before
    they are handed over. *)
Definition registration_events (keyboard viewport : SystemPtr) (a : N)
  : list Event :=
  let made k n :=
    [ EvNewSystem (mkSystemPtr k (fresh a n));
      EvAddSystem (mkSystemPtr k (fresh a n)) ] in
  [ EvAddSystem keyboard ]
  ++ made OgreAddSceneNodeSystem 5%nat
  ++ made OgreUpdateSceneNodeSystem 6%nat
  ++ made OgreCameraSystem 7%nat
  ++ made OgreLightSystem 8%nat
  ++ made SkySystem 9%nat
  ++ made OgreEntitySystem 10%nat
  ++ [ EvAddSystem viewport ]
  ++ made OgreRemoveSceneNodeSystem 11%nat
  ++ made RenderSystem 12%nat.

(** The events of an [init] that stops at the configuration step. *)
Definition init_exit_events (old : Ptr) (h : Host) : list Event :=
  setupLog_events h
  ++ [ EvNewRoot PLUGINS_CFG (fresh (after_setupLog h) 1) ]
  ++ (if old =? nullptr then [] else [EvDeleteRoot old])
  ++ [ EvConfigLoad RESOURCES_CFG ]
  ++ map location_event (manifest_locations (resources_cfg h))
  ++ [ EvRestoreConfig false; EvShowConfigDialog false ].

Definition is_EvAddSystem (e : Event) : bool :=
  match e with EvAddSystem _ => true | _ => false end.

Definition is_EvSystemUpdate (e : Event) : bool :=
  match e with EvSystemUpdate _ _ => true | _ => false end.

(** The lifecycle methods a caller can invoke, and what the environment
    can do between two calls. *)
Inductive Call :=
| CallInit
| CallUpdate (milliSeconds : Z)
| CallShutdown
| OsCloseRequest (window : Ptr)
| UserConfig (restore dialog : bool).

Definition post_close (window : Ptr) : M unit :=
  h <- gets host ;;
  set_host (host_with_pending_close (pending_close h ++ [window]) h).

Definition user_config (restore dialog : bool) : M unit :=
  h <- gets host ;;
  set_host (host_with_config restore dialog h).

Definition run_call (c : Call) : M unit :=
  match c with
  | CallInit => init
  | CallUpdate milliSeconds => update milliSeconds
  | CallShutdown => shutdown
  | OsCloseRequest window => post_close window
  | UserConfig restore dialog => user_config restore dialog
  end.

Definition run_calls (cs : list Call) : M unit := forEach run_call cs.

(** The edges of the lifecycle state machine (section 4.1). *)
Definition in_order (c : Call) (from : Lifecycle) : bool :=
  match c, from with
  | CallInit, Uninitialized => true
  | CallUpdate _, (Initialized | Running) => true
  | CallShutdown, (Initialized | Running) => true
  | (OsCloseRequest _ | UserConfig _ _), _ => true
  | _, _ => false
  end.

Definition target (c : Call) (from : Lifecycle) : Lifecycle :=
  match c with
  | CallInit => Initialized
  | CallUpdate _ => Running
  | CallShutdown => ShutDown
  | _ => from
  end.

Definition rank (l : Lifecycle) : nat :=
  match l with
  | Uninitialized => 0
  | Initialized => 1
  | Running => 2
  | ShutDown => 3
  end.

Definition is_EvGameQuit (e : Event) : bool :=
  match e with EvGameQuit => true | _ => false end.

(** What one close notification for [window] makes the pump record when
    the engine's window is [own]: one callback per registration for that
    window, each followed by the quit signal when the window is the
    engine's. *)
Definition close_events (own : Ptr) (listeners : list Ptr) (window : Ptr)
  : list Event :=
  flat_map (fun registered : Ptr =>
              if registered =? window
              then EvWindowClosing window
                   :: (if window =? own then [EvGameQuit] else [])
              else [])
           listeners.

Definition pump_events (own : Ptr) (listeners queue : list Ptr)
  : list Event :=
  flat_map (close_events own listeners) queue.

(** What the message pump records in world [w]. *)
Definition pumped (w : World) : list Event :=
  pump_events (m_window (impl w)) (window_listeners (host w))
    (pending_close (host w)).

Definition quit_after (q : bool) (evs : list Event) : bool :=
  q || existsb is_EvGameQuit evs.

Definition is_CallInit (c : Call) : bool :=
  match c with CallInit => true | _ => false end.

(** Every System an [init] hands to [addSystem] was constructed by that
    same [init]. *)
Definition constructs_every_system_it_registers (evs : list Event) : Prop :=
  forall s, In (EvAddSystem s) evs -> In (EvNewSystem s) evs.

(** A decidable way to see that an event list registers the System at
    address [a] and never constructs it. *)
Definition registers_without_constructing (a : Ptr) (evs : list Event)
  : bool :=
  existsb (fun e => match e with
                    | EvAddSystem s => sys_addr s =? a
                    | _ => false
                    end) evs
  && forallb (fun e => match e with
                       | EvNewSystem s => negb (sys_addr s =? a)
                       | _ => true
                       end) evs.

(** A call that dies on a fatal error. *)
Definition rejected_as_fatal (c : Call) (w : World) : Prop :=
  exists f w', run_call c w = Aborts f w'.

(** A process about to construct the engine: the persisted display
    configuration is missing and the user confirms the dialog. *)
Definition boot_world : World :=
  mkWorld
    (mkImplementation nullptr nullptr (mkSystemPtr KeyboardSystem nullptr)
       nullptr (mkSystemPtr OgreViewportSystem nullptr) nullptr)
    (mkEngineBase Uninitialized [])
    false
    (mkHost false true
       [ ("General", [("FileSystem", "media"); ("Zip", "media/ogre.zip")]);
         ("Models", [("FileSystem", "media/models")]) ]
       4242 [] 0 [] [] nullptr)
    [].

(** The same process when the user cancels the dialog. *)
Definition boot_world_cancelled : World :=
  world_of (user_config false false boot_world).

(** The sample process after the constructor, after [init], with a
    close request for the engine's window queued, and with a user who
    would cancel the configuration dialog of a second [init]. *)
Definition constructed_world : World :=
  world_of (OgreEngine_ctor boot_world).

Definition initialized_world : World :=
  world_of (init constructed_world).

Definition closing_world : World :=
  world_of (post_close (window initialized_world) initialized_world).

Definition reconfigured_world : World :=
  world_of (user_config false false initialized_world).

Definition cancelled_world : World :=
  world_of (OgreEngine_ctor boot_world_cancelled).

(** The two Systems the constructor makes are still the members. *)
Definition same_systems (w w' : World) : Prop :=
  m_keyboardSystem (impl w') = m_keyboardSystem (impl w)
  /\ m_viewportSystem (impl w') = m_viewportSystem (impl w).

(** A command that, however it ends, leaves those two members alone. *)
Definition keeps {A} (c : M A) : Prop :=
  forall w, same_systems w (world_of (c w)).

(** What a lifecycle call made out of order records before it fails,
    and the members and listener registrations it leaves behind.  An
    out-of-order [init] runs its setup again, and when the display
    configuration resolves it also hands every System to [addSystem]
    again, before the base class is asked. *)
Definition out_of_order_events (c : Call) (w : World) : list Event :=
  match c with
  | CallInit =>
      if config_resolves (host w)
      then init_setup_events (m_root (impl w)) (host w)
           ++ registration_events (m_keyboardSystem (impl w))
                (m_viewportSystem (impl w)) (after_setupLog (host w))
      else init_exit_events (m_root (impl w)) (host w)
  | CallUpdate _ => EvMessagePump :: pumped w
  | _ => []
  end.

Definition out_of_order_impl (c : Call) (w : World) : Implementation :=
  let a := after_setupLog (host w) in
  match c with
  | CallInit =>
      if config_resolves (host w)
      then mkImplementation (fresh a 1) (fresh a 4)
             (m_keyboardSystem (impl w)) (fresh a 3)
             (m_viewportSystem (impl w)) (fresh a 2)
      else mkImplementation (fresh a 1) (m_inputManager (impl w))
             (m_keyboardSystem (impl w)) (m_sceneManager (impl w))
             (m_viewportSystem (impl w)) (m_window (impl w))
  | _ => impl w
  end.

Definition out_of_order_listeners (c : Call) (w : World) : list Ptr :=
  match c with
  | CallInit =>
      if config_resolves (host w)
      then window_listeners (host w) ++ [fresh (after_setupLog (host w)) 2]
      else window_listeners (host w)
  | _ => window_listeners (host w)
  end.







(** ** What the further properties speak about *)

(** Running a command [n] times in a row. *)
Fixpoint times (n : nat) (c : M unit) : M unit :=
  match n with
  | O => ret tt
  | S k => c ;; times k c
  end.

(** Reading back the decimal text of a window handle. *)
Definition parse_handle (s : string) : option N :=
  option_map N.of_uint (NilZero.uint_of_string s).

Definition is_EvNewLogManager (e : Event) : bool :=
  match e with EvNewLogManager _ => true | _ => false end.

Definition is_EvShowConfigDialog (e : Event) : bool :=
  match e with EvShowConfigDialog _ => true | _ => false end.

(** What no lifecycle call undoes: a quit flag that is set, the search
    paths registered so far, a log manager that exists, the events
    recorded so far. *)
Definition grows (w w' : World) : Prop :=
  (game_quit w = true -> game_quit w' = true)
  /\ (exists more,
         resource_locations (host w')
         = resource_locations (host w) ++ more)
  /\ (static_logManager (host w) <> nullptr ->
      static_logManager (host w') = static_logManager (host w))
  /\ (exists evs, trace w' = trace w ++ evs).

(** A command that, however it ends, undoes none of these. *)
Definition steady {A} (c : M A) : Prop :=
  forall w, grows w (world_of (c w)).

(** ** Helper lemmas *)

Lemma forEach_emit {A} (g : A -> Event) (l : list A) (w : World) :
  forEach (fun x => emit (g x)) l w
  = Returns tt (mkWorld (impl w) (base w) (game_quit w) (host w)
                        (trace w ++ map g l)).
Proof.
  revert w; induction l as [|x l IH]; intros [i b q h t]; simpl.
  - unfold ret. now rewrite app_nil_r.
  - unfold bind, emit at 1. simpl. rewrite IH. simpl.
    now rewrite <- app_assoc.
Qed.

Lemma loadSection_spec (sectionName : string) (content : SettingsMultiMap)
    (w : World) :
  loadSection sectionName content w
  = Returns tt
      (mkWorld (impl w) (base w) (game_quit w)
         (host_with_resource_locations
            (resource_locations (host w)
               ++ section_locations (sectionName, content))
            (host w))
         (trace w
            ++ map location_event
                 (section_locations (sectionName, content)))).
Proof.
  unfold loadSection, section_locations. simpl.
  revert w.
  induction content as [|[ty loc] rest IH];
    intros [i b q [r d c n p a rl wl lm] t]; simpl.
  - unfold ret. now rewrite !app_nil_r.
  - unfold bind at 1. unfold addResourceLocation at 1.
    unfold bind, emit, gets, set_host at 1. simpl.
    rewrite IH. simpl. now rewrite <- !app_assoc.
Qed.

Lemma loadSections_spec (config : ConfigFile) (w : World) :
  loadSections config w
  = Returns tt
      (mkWorld (impl w) (base w) (game_quit w)
         (host_with_resource_locations
            (resource_locations (host w) ++ manifest_locations config)
            (host w))
         (trace w ++ map location_event (manifest_locations config))).
Proof.
  revert w.
  induction config as [|[sec content] more IH];
    intros [i b q [r d c n p a rl wl lm] t]; simpl.
  - unfold ret. now rewrite !app_nil_r.
  - unfold bind at 1. rewrite loadSection_spec. simpl.
    rewrite IH. simpl.
    unfold manifest_locations. simpl.
    now rewrite map_app, <- !app_assoc.
Qed.


Lemma new_events_app (w w' : World) (evs : list Event) :
  trace w' = trace w ++ evs -> new_events w w' = evs.
Proof.
  intros E. unfold new_events. rewrite E.
  rewrite skipn_app, skipn_all, Nat.sub_diag. reflexivity.
Qed.

Lemma quit_after_app (q : bool) (evs evs' : list Event) :
  quit_after (quit_after q evs) evs' = quit_after q (evs ++ evs').
Proof.
  unfold quit_after. rewrite existsb_app. now rewrite orb_assoc.
Qed.

Lemma windowClosing_spec (win : Ptr) (w : World) :
  windowClosing win w
  = Returns true
      (if win =? m_window (impl w)
       then mkWorld (impl w) (base w) true (host w) (trace w ++ [EvGameQuit])
       else w).
Proof.
  unfold windowClosing, bind, gets, Game_quit, bind, emit, set_game_quit, ret.
  destruct (win =? m_window (impl w)); reflexivity.
Qed.

Lemma deliver_to_spec (win : Ptr) (l : list Ptr) (w : World) :
  forEach (fun registered : Ptr =>
             if registered =? win
             then emit (EvWindowClosing win) ;;
                  _ <- windowClosing win ;;
                  ret tt
             else ret tt) l w
  = Returns tt
      (mkWorld (impl w) (base w)
         (quit_after (game_quit w) (close_events (m_window (impl w)) l win))
         (host w)
         (trace w ++ close_events (m_window (impl w)) l win)).
Proof.
  revert w. induction l as [|r l IH]; intros [i b q h t]; simpl.
  - unfold ret, quit_after. simpl. now rewrite orb_false_r, app_nil_r.
  - unfold bind at 1. destruct (r =? win).
    + unfold bind at 1. unfold emit at 1. simpl.
      unfold bind at 1. rewrite windowClosing_spec. simpl.
      unfold ret at 1.
      destruct (win =? m_window i); rewrite IH; simpl;
        unfold quit_after; simpl;
        rewrite <- ?app_assoc; simpl; rewrite ?orb_true_r; reflexivity.
    + unfold ret at 1. rewrite IH. reflexivity.
Qed.

Lemma deliverClose_spec (win : Ptr) (w : World) :
  deliverClose win w
  = Returns tt
      (mkWorld (impl w) (base w)
         (quit_after (game_quit w)
            (close_events (m_window (impl w)) (window_listeners (host w))
               win))
         (host w)
         (trace w
            ++ close_events (m_window (impl w)) (window_listeners (host w))
                 win)).
Proof.
  unfold deliverClose. unfold bind at 1. unfold gets at 1.
  apply deliver_to_spec.
Qed.

Lemma forEach_deliverClose_spec (queue : list Ptr) (w : World) :
  forEach deliverClose queue w
  = Returns tt
      (mkWorld (impl w) (base w)
         (quit_after (game_quit w)
            (pump_events (m_window (impl w)) (window_listeners (host w))
               queue))
         (host w)
         (trace w
            ++ pump_events (m_window (impl w)) (window_listeners (host w))
                 queue)).
Proof.
  revert w. induction queue as [|win queue IH]; intros [i b q h t]; simpl.
  - unfold ret, quit_after. simpl. now rewrite orb_false_r, app_nil_r.
  - unfold bind at 1. rewrite deliverClose_spec. simpl.
    rewrite IH. simpl.
    now rewrite quit_after_app, <- app_assoc.
Qed.

Lemma messagePump_spec (w : World) :
  messagePump w
  = Returns tt
      (mkWorld (impl w) (base w) (quit_after (game_quit w) (pumped w))
         (host_with_pending_close [] (host w))
         (trace w ++ EvMessagePump :: pumped w)).
Proof.
  destruct w as [i b q [r d c n p a rl wl lm] t].
  unfold messagePump, pumped. unfold bind at 1. unfold emit at 1. simpl.
  unfold bind at 1. unfold take_pending_close, bind, gets, set_host, ret.
  simpl. rewrite forEach_deliverClose_spec. simpl.
  now rewrite <- app_assoc.
Qed.

Lemma update_spec (milliSeconds : Z) (w : World) :
  lifecycle (base w) = Initialized \/ lifecycle (base w) = Running ->
  update milliSeconds w
  = Returns tt
      (mkWorld (impl w) (mkEngineBase Running (systems (base w)))
         (quit_after (game_quit w) (pumped w))
         (host_with_pending_close [] (host w))
         (trace w
            ++ EvMessagePump
               :: pumped w
               ++ map (fun s => EvSystemUpdate s milliSeconds)
                    (systems (base w)))).
Proof.
  intros L. unfold update. unfold bind at 1. rewrite messagePump_spec.
  unfold Engine_update. unfold bind at 1. unfold gets at 1. simpl.
  destruct L as [-> | ->];
    (unfold bind at 1; rewrite forEach_emit; unfold set_base; simpl;
     rewrite <- app_assoc; reflexivity).
Qed.

Lemma pump_events_kind (own : Ptr) (listeners queue : list Ptr) (e : Event) :
  In e (pump_events own listeners queue) ->
  exists win, In win queue /\ In win listeners /\
    (e = EvWindowClosing win \/ (e = EvGameQuit /\ win = own)).
Proof.
  unfold pump_events, close_events. intros H.
  apply in_flat_map in H. destruct H as [win [Hq H]].
  apply in_flat_map in H. destruct H as [r [Hl H]].
  exists win. destruct (N.eqb_spec r win) as [->|]; [|contradiction].
  split; [assumption|]. split; [assumption|].
  destruct H as [<-|H]; [now left|].
  destruct (N.eqb_spec win own) as [->|]; [|contradiction].
  destruct H as [<-|[]]. now right.
Qed.

Lemma pump_events_quit (own : Ptr) (listeners queue : list Ptr) :
  In own queue -> In own listeners ->
  In EvGameQuit (pump_events own listeners queue).
Proof.
  intros Hq Hl. unfold pump_events, close_events.
  apply in_flat_map. exists own. split; [assumption|].
  apply in_flat_map. exists own. split; [assumption|].
  rewrite N.eqb_refl. simpl. auto.
Qed.

Lemma pumped_not_update (w : World) (e : Event) :
  In e (pumped w) -> is_EvSystemUpdate e = false.
Proof.
  intros H. apply pump_events_kind in H.
  destruct H as [win [_ [_ [-> | [-> _]]]]]; reflexivity.
Qed.

Lemma filter_none {A} (f : A -> bool) (l : list A) :
  (forall x, In x l -> f x = false) -> filter f l = [].
Proof.
  induction l as [|x l IH]; simpl; intros H; [reflexivity|].
  rewrite (H x) by now left. apply IH. intros y Hy. apply H. now right.
Qed.

Lemma filter_all {A} (f : A -> bool) (l : list A) :
  (forall x, In x l -> f x = true) -> filter f l = l.
Proof.
  induction l as [|x l IH]; simpl; intros H; [reflexivity|].
  rewrite (H x) by now left. f_equal. apply IH. intros y Hy. apply H.
  now right.
Qed.

Lemma updates_of_frame (w : World) (milliSeconds : Z) :
  filter is_EvSystemUpdate
    (EvMessagePump
     :: pumped w
     ++ map (fun s => EvSystemUpdate s milliSeconds) (systems (base w)))
  = map (fun s => EvSystemUpdate s milliSeconds) (systems (base w)).
Proof.
  simpl. rewrite filter_app.
  rewrite (filter_none _ (pumped w)) by apply pumped_not_update.
  simpl. apply filter_all. intros e H.
  apply in_map_iff in H. destruct H as [s [<- _]]. reflexivity.
Qed.

(** ** The claims *)

(** C1.  For every elapsed time [0 <= milliSeconds], [update] on an
    initialized engine returns, and what it records is first the message
    pump with the callbacks the pump makes, none of which is a System
    update, and then exactly one [update(milliSeconds)] per registered
    System, in registration order; the registry is left as it was. *)
Theorem update_pumps_then_updates_every_system
    (milliSeconds : Z) (w : World) :
  (0 <= milliSeconds)%Z ->
  lifecycle (base w) = Initialized \/ lifecycle (base w) = Running ->
  exists w',
    update milliSeconds w = Returns tt w'
    /\ new_events w w'
       = EvMessagePump
         :: pumped w
         ++ map (fun s => EvSystemUpdate s milliSeconds) (systems (base w))
    /\ (forall e, In e (pumped w) -> is_EvSystemUpdate e = false)
    /\ filter is_EvSystemUpdate (new_events w w')
       = map (fun s => EvSystemUpdate s milliSeconds) (systems (base w))
    /\ systems (base w') = systems (base w).
Proof.
  intros _ L. eexists. split; [apply update_spec; assumption|].
  assert (E : new_events w
                (mkWorld (impl w) (mkEngineBase Running (systems (base w)))
                   (quit_after (game_quit w) (pumped w))
                   (host_with_pending_close [] (host w))
                   (trace w
                      ++ EvMessagePump
                         :: pumped w
                         ++ map (fun s => EvSystemUpdate s milliSeconds)
                              (systems (base w))))
              = EvMessagePump
                :: pumped w
                ++ map (fun s => EvSystemUpdate s milliSeconds)
                     (systems (base w)))
    by (apply new_events_app; reflexivity).
  rewrite E. repeat split.
  - apply pumped_not_update.
  - apply updates_of_frame.
Qed.

(** C7.  When a close notification for the engine's own window is
    queued and the engine listens on that window, [update] returns with
    the quit flag set, having signalled quit during the pump, and the
    frame is complete: every registered System was updated once, in
    order, and the engine is [Running]. *)
Theorem close_during_update_sets_quit_and_completes_frame
    (milliSeconds : Z) (w : World) :
  lifecycle (base w) = Initialized \/ lifecycle (base w) = Running ->
  In (m_window (impl w)) (pending_close (host w)) ->
  In (m_window (impl w)) (window_listeners (host w)) ->
  exists w',
    update milliSeconds w = Returns tt w'
    /\ game_quit w' = true
    /\ In EvGameQuit (pumped w)
    /\ filter is_EvSystemUpdate (new_events w w')
       = map (fun s => EvSystemUpdate s milliSeconds) (systems (base w))
    /\ lifecycle (base w') = Running.
Proof.
  intros L Hq Hl. eexists. split; [apply update_spec; assumption|].
  pose proof (pump_events_quit _ _ _ Hq Hl) as Q. fold (pumped w) in Q.
  simpl. repeat split.
  - unfold quit_after.
    assert (X : existsb is_EvGameQuit (pumped w) = true)
      by (apply existsb_exists; exists EvGameQuit; auto).
    rewrite X. apply orb_true_r.
  - exact Q.
  - erewrite new_events_app by reflexivity. apply updates_of_frame.
Qed.

(** C9.  For every window pointer the close callback returns [true];
    it signals quit exactly when the pointer is the engine's own
    [m_window], and then the quit flag is set; for any other window the
    world, quit flag included, is left untouched. *)
Theorem windowClosing_quits_only_for_own_window (win : Ptr) (w : World) :
  exists w',
    windowClosing win w = Returns true w'
    /\ (In EvGameQuit (new_events w w') <-> win = m_window (impl w))
    /\ (win = m_window (impl w) -> game_quit w' = true)
    /\ (win <> m_window (impl w) -> w' = w).
Proof.
  eexists. split; [apply windowClosing_spec|].
  destruct (N.eqb_spec win (m_window (impl w))) as [E|NE].
  - repeat split; try tauto.
    intros _. erewrite new_events_app by reflexivity. now left.
  - repeat split; try tauto.
    unfold new_events. rewrite skipn_all. intros [].
Qed.


(** *** The base class *)

Lemma Engine_init_spec (w : World) :
  lifecycle (base w) = Uninitialized ->
  Engine_init w
  = Returns tt
      (mkWorld (impl w) (mkEngineBase Initialized (systems (base w)))
         (game_quit w) (host w)
         (trace w ++ map EvSystemInit (systems (base w)))).
Proof.
  intros L. unfold Engine_init. unfold bind at 1. unfold gets at 1.
  rewrite L. unfold bind at 1. rewrite forEach_emit. reflexivity.
Qed.

Lemma Engine_init_rejected (w : World) :
  lifecycle (base w) <> Uninitialized ->
  Engine_init w = Aborts LifecycleViolation w.
Proof.
  intros L. unfold Engine_init, bind, gets.
  destruct (lifecycle (base w)); [contradiction| | |]; reflexivity.
Qed.

Lemma Engine_shutdown_spec (w : World) :
  lifecycle (base w) = Initialized \/ lifecycle (base w) = Running ->
  Engine_shutdown w
  = Returns tt
      (mkWorld (impl w) (mkEngineBase ShutDown (systems (base w)))
         (game_quit w) (host w)
         (trace w
            ++ map EvSystemShutdown (teardown_order (systems (base w))))).
Proof.
  intros L. unfold Engine_shutdown. unfold bind at 1. unfold gets at 1.
  destruct L as [-> | ->];
    (unfold bind at 1; rewrite forEach_emit; reflexivity).
Qed.

Lemma Engine_shutdown_rejected (w : World) :
  lifecycle (base w) = Uninitialized \/ lifecycle (base w) = ShutDown ->
  Engine_shutdown w = Aborts LifecycleViolation w.
Proof.
  intros L. unfold Engine_shutdown, bind, gets.
  destruct L as [-> | ->]; reflexivity.
Qed.

(** *** Running [init] *)

Ltac run :=
  cbv -[N.succ_pos app map forEach loadSections manifest_locations
        location_event PLUGINS_CFG RESOURCES_CFG lexical_cast rev
        teardown_order Engine_init Engine_shutdown Engine_update].

Ltac project :=
  cbn [trace base impl host game_quit
       lifecycle systems
       m_root m_inputManager m_keyboardSystem m_sceneManager
       m_viewportSystem m_window
       restoreConfig_ok showConfigDialog_ok resources_cfg native_handle
       pending_close next_addr resource_locations window_listeners
       static_logManager].

Ltac flatten_trace :=
  cbv [init_setup_events init_exit_events registration_events init_systems
       setupLog_events after_setupLog config_events fresh Nat.iter nat_rect
       nullptr N.eqb HANDLE_NAME];
  repeat rewrite <- app_assoc; cbn [app map]; rewrite ?app_nil_r.

(** [init] on an engine that may be initialized, when the display
    configuration resolves. *)
Lemma init_returns (w : World) :
  lifecycle (base w) = Uninitialized ->
  config_resolves (host w) = true ->
  exists w',
    init w = Returns tt w'
    /\ trace w'
       = trace w
         ++ init_setup_events (m_root (impl w)) (host w)
         ++ registration_events (m_keyboardSystem (impl w))
              (m_viewportSystem (impl w)) (after_setupLog (host w))
         ++ map EvSystemInit
              (systems (base w)
               ++ init_systems (m_keyboardSystem (impl w))
                    (m_viewportSystem (impl w)) (after_setupLog (host w)))
    /\ base w'
       = mkEngineBase Initialized
           (systems (base w)
            ++ init_systems (m_keyboardSystem (impl w))
                 (m_viewportSystem (impl w)) (after_setupLog (host w)))
    /\ impl w'
       = mkImplementation (fresh (after_setupLog (host w)) 1)
           (fresh (after_setupLog (host w)) 4) (m_keyboardSystem (impl w))
           (fresh (after_setupLog (host w)) 3) (m_viewportSystem (impl w))
           (fresh (after_setupLog (host w)) 2)
    /\ window_listeners (host w')
       = window_listeners (host w) ++ [fresh (after_setupLog (host w)) 2]
    /\ game_quit w' = game_quit w.
Proof.
  destruct w as [[mr mi mk ms mv mw] [lc sy] q [r d c n p a rl wl lm] t].
  unfold config_resolves. project. intros -> C.
  destruct r; [|destruct d; [|discriminate]];
    (destruct mr as [|old]; destruct lm as [|made];
     (eexists; split;
      [ unfold init; run; rewrite loadSections_spec; run;
        rewrite Engine_init_spec by reflexivity; run; reflexivity
      | project; split; [|split; [|split; [|split]]];
        flatten_trace; reflexivity ])).
Qed.

(** [init] when the display configuration does not resolve. *)
Lemma init_exits (w : World) :
  config_resolves (host w) = false ->
  exists w',
    init w = Exits EXIT_SUCCESS w'
    /\ trace w'
       = trace w ++ init_exit_events (m_root (impl w)) (host w)
    /\ base w' = base w.
Proof.
  destruct w as [[mr mi mk ms mv mw] [lc sy] q [r d c n p a rl wl lm] t].
  unfold config_resolves. project. intros C.
  destruct r; [discriminate|]. destruct d; [discriminate|].
  destruct mr as [|old]; destruct lm as [|made];
    (eexists; split;
     [ unfold init; run; rewrite loadSections_spec; run; reflexivity
     | project; split; [flatten_trace|]; reflexivity ]).
Qed.

(** [init] on an engine that has left [Uninitialized], when the display
    configuration resolves: the setup runs again, nothing is registered,
    and the base class rejects the call. *)
Lemma init_rejected (w : World) :
  lifecycle (base w) <> Uninitialized ->
  config_resolves (host w) = true ->
  exists w',
    init w = Aborts LifecycleViolation w'
    /\ base w' = base w.
Proof.
  destruct w as [[mr mi mk ms mv mw] [lc sy] q [r d c n p a rl wl lm] t].
  unfold config_resolves. project. intros L C.
  destruct lc; [contradiction| | |];
    (destruct r; [|destruct d; [|discriminate]]);
    (destruct mr as [|old]; destruct lm as [|made];
     (eexists; split;
      [ unfold init; run; rewrite loadSections_spec; run;
        rewrite Engine_init_rejected by (project; discriminate);
        reflexivity
      | reflexivity ])).
Qed.

(** *** Running [shutdown] and [update] out of order *)

Lemma shutdown_rejected (w : World) :
  lifecycle (base w) = Uninitialized \/ lifecycle (base w) = ShutDown ->
  shutdown w = Aborts LifecycleViolation w.
Proof.
  intros L. unfold shutdown. unfold bind at 1.
  now rewrite Engine_shutdown_rejected.
Qed.

Lemma update_rejected (milliSeconds : Z) (w : World) :
  lifecycle (base w) = Uninitialized \/ lifecycle (base w) = ShutDown ->
  exists w',
    update milliSeconds w = Aborts LifecycleViolation w'
    /\ impl w' = impl w /\ base w' = base w.
Proof.
  intros L. unfold update. unfold bind at 1. rewrite messagePump_spec.
  unfold Engine_update, bind, gets. project.
  destruct L as [-> | ->]; (eexists; split; [reflexivity|]; now split).
Qed.

Lemma shutdown_spec (w : World) :
  lifecycle (base w) = Initialized \/ lifecycle (base w) = Running ->
  m_window (impl w) <> nullptr ->
  exists w',
    shutdown w = Returns tt w'
    /\ trace w'
       = trace w
         ++ map EvSystemShutdown (teardown_order (systems (base w)))
         ++ (if m_inputManager (impl w) =? nullptr then []
             else [EvDestroyInputSystem (m_inputManager (impl w))])
         ++ [EvWindowDestroy (m_window (impl w))]
         ++ (if m_root (impl w) =? nullptr then []
             else [EvDeleteRoot (m_root (impl w))])
    /\ impl w'
       = mkImplementation nullptr nullptr (m_keyboardSystem (impl w))
           (m_sceneManager (impl w)) (m_viewportSystem (impl w))
           (m_window (impl w))
    /\ base w' = mkEngineBase ShutDown (systems (base w)).
Proof.
  destruct w as [[mr mi mk ms mv mw] [lc sy] q h t].
  project. intros L W.
  destruct mw as [|win]; [contradiction|].
  unfold shutdown. unfold bind at 1.
  rewrite Engine_shutdown_spec by exact L. project.
  destruct mi as [|im]; destruct mr as [|old];
    (eexists; split;
     [ run; reflexivity
     | project; split; [|split];
       cbv [nullptr N.eqb]; repeat rewrite <- app_assoc; cbn [app];
       rewrite ?app_nil_r; reflexivity ]).
Qed.

(** [shutdown] returns only from [Initialized] or [Running], and then
    the input manager and the root are gone. *)
Lemma shutdown_returns_inv (w w' : World) :
  shutdown w = Returns tt w' ->
  (lifecycle (base w) = Initialized \/ lifecycle (base w) = Running)
  /\ lifecycle (base w') = ShutDown
  /\ m_inputManager (impl w') = nullptr
  /\ m_root (impl w') = nullptr.
Proof.
  intros H.
  assert (L : lifecycle (base w) = Initialized
              \/ lifecycle (base w) = Running).
  { destruct (lifecycle (base w)) eqn:E; auto;
      rewrite shutdown_rejected in H by (rewrite E; auto); discriminate. }
  split; [exact L|].
  destruct (N.eq_dec (m_window (impl w)) nullptr) as [Hz|NZ].
  - exfalso. revert H. unfold shutdown. unfold bind at 1.
    rewrite Engine_shutdown_spec by exact L.
    destruct w as [[mr mi mk ms mv mw] b q h t].
    cbn [m_window impl] in Hz. subst mw.
    destruct mi; run; discriminate.
  - destruct (shutdown_spec w L NZ) as [w1 [E [_ [I B]]]].
    rewrite E in H. injection H as <-.
    rewrite I, B. repeat split.
Qed.

(** *** The constructor *)

Lemma OgreEngine_ctor_spec (w : World) :
  OgreEngine_ctor w
  = Returns tt
      (mkWorld
         (mkImplementation nullptr nullptr
            (mkSystemPtr KeyboardSystem (fresh (next_addr (host w)) 1))
            nullptr
            (mkSystemPtr OgreViewportSystem (fresh (next_addr (host w)) 2))
            nullptr)
         (mkEngineBase Uninitialized [])
         (game_quit w)
         (host_with_next_addr (fresh (next_addr (host w)) 2) (host w))
         (trace w
            ++ [ EvNewSystem
                   (mkSystemPtr KeyboardSystem (fresh (next_addr (host w)) 1));
                 EvNewSystem
                   (mkSystemPtr OgreViewportSystem
                      (fresh (next_addr (host w)) 2)) ])).
Proof.
  destruct w as [i b q [r d c n p a rl wl lm] t].
  unfold OgreEngine_ctor. run. now rewrite <- app_assoc.
Qed.

(** *** Commands that leave the constructor's Systems in place *)

Lemma keeps_bind {A B} (c : M A) (k : A -> M B) :
  keeps c -> (forall a, keeps (k a)) -> keeps (bind c k).
Proof.
  intros Hc Hk w. unfold bind. specialize (Hc w).
  destruct (c w) as [a w1|code w1|f w1]; simpl in *; try assumption.
  specialize (Hk a w1). unfold same_systems in *.
  destruct Hc, Hk. split; congruence.
Qed.

Lemma keeps_ret {A} (a : A) : keeps (ret a).
Proof. intros w; split; reflexivity. Qed.

Lemma keeps_gets {A} (f : World -> A) : keeps (gets f).
Proof. intros w; split; reflexivity. Qed.

Lemma keeps_abort {A} (f : Failure) : keeps (@abort A f).
Proof. intros w; split; reflexivity. Qed.

Lemma keeps_exit {A} (code : Z) : keeps (@exit A code).
Proof. intros w; split; reflexivity. Qed.

Lemma keeps_emit (e : Event) : keeps (emit e).
Proof. intros w; split; reflexivity. Qed.

Lemma keeps_set_base (b : EngineBase) : keeps (set_base b).
Proof. intros w; split; reflexivity. Qed.

Lemma keeps_set_host (h : Host) : keeps (set_host h).
Proof. intros w; split; reflexivity. Qed.

Lemma keeps_set_game_quit (q : bool) : keeps (set_game_quit q).
Proof. intros w; split; reflexivity. Qed.

Lemma keeps_alloc : keeps alloc.
Proof. intros w; split; reflexivity. Qed.

Lemma keeps_set_m_root (p : Ptr) : keeps (set_m_root p).
Proof. intros w; split; reflexivity. Qed.

Lemma keeps_set_m_inputManager (p : Ptr) : keeps (set_m_inputManager p).
Proof. intros w; split; reflexivity. Qed.

Lemma keeps_set_m_sceneManager (p : Ptr) : keeps (set_m_sceneManager p).
Proof. intros w; split; reflexivity. Qed.

Lemma keeps_set_m_window (p : Ptr) : keeps (set_m_window p).
Proof. intros w; split; reflexivity. Qed.

Lemma keeps_deref (p : Ptr) : keeps (deref p).
Proof. unfold deref. destruct (p =? nullptr); intros w; split; reflexivity. Qed.

Lemma keeps_forEach {A} (body : A -> M unit) (l : list A) :
  (forall x, keeps (body x)) -> keeps (forEach body l).
Proof.
  intros H. induction l as [|x l IH]; simpl.
  - apply keeps_ret.
  - apply keeps_bind; [apply H | intros _; exact IH].
Qed.

Create HintDb keeps.

#[local] Hint Resolve keeps_ret keeps_gets keeps_abort keeps_exit keeps_emit
  keeps_set_base keeps_set_host keeps_set_game_quit keeps_alloc
  keeps_set_m_root keeps_set_m_inputManager keeps_set_m_sceneManager
  keeps_set_m_window keeps_deref : keeps.

Ltac keeps_tac :=
  repeat first
    [ progress cbv beta zeta
    | solve [auto with keeps]
    | apply keeps_forEach; intros ?
    | match goal with
      | |- keeps (if ?b then _ else _) => destruct b
      | |- keeps (match ?x with _ => _ end) => destruct x
      end
    | apply keeps_bind; [|intros ?] ].

Lemma keeps_new_system (k : SystemKind) : keeps (new_system k).
Proof. unfold new_system. keeps_tac. Qed.

Lemma keeps_addResourceLocation (location type group : string) :
  keeps (addResourceLocation location type group).
Proof. unfold addResourceLocation. keeps_tac. Qed.

Lemma keeps_addWindowEventListener (win : Ptr) :
  keeps (addWindowEventListener win).
Proof. unfold addWindowEventListener. keeps_tac. Qed.

Lemma keeps_take_pending_close : keeps take_pending_close.
Proof. unfold take_pending_close. keeps_tac. Qed.

Lemma keeps_Game_quit : keeps Game_quit.
Proof. unfold Game_quit. keeps_tac. Qed.

#[local] Hint Resolve keeps_new_system keeps_addResourceLocation
  keeps_addWindowEventListener keeps_take_pending_close keeps_Game_quit
  : keeps.

Lemma keeps_Engine_addSystem (s : SystemPtr) : keeps (Engine_addSystem s).
Proof. unfold Engine_addSystem. keeps_tac. Qed.

Lemma keeps_Engine_init : keeps Engine_init.
Proof. unfold Engine_init. keeps_tac. Qed.

Lemma keeps_Engine_update (milliSeconds : Z) :
  keeps (Engine_update milliSeconds).
Proof. unfold Engine_update. keeps_tac. Qed.

Lemma keeps_Engine_shutdown : keeps Engine_shutdown.
Proof. unfold Engine_shutdown. keeps_tac. Qed.

Lemma keeps_loadConfig : keeps loadConfig.
Proof. unfold loadConfig. keeps_tac. Qed.

Lemma keeps_loadSections (config : ConfigFile) : keeps (loadSections config).
Proof.
  induction config as [|[sec content] more IH]; simpl.
  - apply keeps_ret.
  - apply keeps_bind; [|intros _; exact IH].
    unfold loadSection. keeps_tac.
Qed.

#[local] Hint Resolve keeps_Engine_addSystem keeps_Engine_init
  keeps_Engine_update keeps_Engine_shutdown keeps_loadConfig
  keeps_loadSections : keeps.

Lemma keeps_loadResources : keeps loadResources.
Proof. unfold loadResources. keeps_tac. Qed.

Lemma keeps_setupInputManager : keeps setupInputManager.
Proof. unfold setupInputManager. keeps_tac. Qed.

Lemma keeps_setupLighting : keeps setupLighting.
Proof. unfold setupLighting. keeps_tac. Qed.

Lemma keeps_setupLog : keeps setupLog.
Proof. unfold setupLog. keeps_tac. Qed.

Lemma keeps_setupSceneManager : keeps setupSceneManager.
Proof. unfold setupSceneManager. keeps_tac. Qed.

Lemma keeps_shutdownInputManager : keeps shutdownInputManager.
Proof. unfold shutdownInputManager. keeps_tac. Qed.

Lemma keeps_windowClosing (win : Ptr) : keeps (windowClosing win).
Proof. unfold windowClosing. keeps_tac. Qed.

Lemma keeps_m_root_reset (p : Ptr) : keeps (m_root_reset p).
Proof. unfold m_root_reset. keeps_tac. Qed.

#[local] Hint Resolve keeps_loadResources keeps_setupInputManager
  keeps_setupLighting keeps_setupLog keeps_setupSceneManager
  keeps_shutdownInputManager keeps_windowClosing keeps_m_root_reset
  : keeps.

Lemma keeps_messagePump : keeps messagePump.
Proof. unfold messagePump, deliverClose. keeps_tac. Qed.

Lemma keeps_addNewSystem (k : SystemKind) : keeps (addNewSystem k).
Proof. unfold addNewSystem. keeps_tac. Qed.

#[local] Hint Resolve keeps_messagePump keeps_addNewSystem : keeps.

Lemma keeps_init : keeps init.
Proof. unfold init. keeps_tac. Qed.

Lemma keeps_shutdown : keeps shutdown.
Proof. unfold shutdown. keeps_tac. Qed.

Lemma keeps_update (milliSeconds : Z) : keeps (update milliSeconds).
Proof. unfold update. keeps_tac. Qed.

Lemma keeps_run_call (c : Call) : keeps (run_call c).
Proof.
  destruct c; simpl.
  - apply keeps_init.
  - apply keeps_update.
  - apply keeps_shutdown.
  - unfold post_close. keeps_tac.
  - unfold user_config. keeps_tac.
Qed.

Lemma keeps_run_calls (cs : list Call) : keeps (run_calls cs).
Proof. apply keeps_forEach. exact keeps_run_call. Qed.

Lemma shutdownInputManager_spec (w : World) :
  exists w',
    shutdownInputManager w = Returns tt w'
    /\ m_inputManager (impl w') = nullptr
    /\ (m_inputManager (impl w) = nullptr -> w' = w)
    /\ new_events w w'
       = if m_inputManager (impl w) =? nullptr then []
         else [EvDestroyInputSystem (m_inputManager (impl w))].
Proof.
  destruct w as [[mr mi mk ms mv mw] b q h t].
  destruct mi as [|im]; (eexists; split; [run; reflexivity|]); project.
  - split; [reflexivity|]. split; [reflexivity|].
    unfold new_events. project. now rewrite skipn_all.
  - split; [reflexivity|]. split; [discriminate|].
    now apply new_events_app.
Qed.

Lemma no_init_no_handles (cs : list Call) (w : World) :
  existsb is_CallInit cs = false ->
  lifecycle (base w) = Uninitialized ->
  impl (world_of (run_calls cs w)) = impl w
  /\ lifecycle (base (world_of (run_calls cs w))) = Uninitialized.
Proof.
  revert w. induction cs as [|c cs IH]; intros w N L.
  - now split.
  - simpl in N. apply orb_false_iff in N. destruct N as [Nc N].
    change (run_calls (c :: cs) w)
      with (bind (run_call c) (fun _ => run_calls cs) w).
    unfold bind.
    destruct c as [|ms| |win|r d]; cbn [run_call]; try discriminate.
    + destruct (update_rejected ms w (or_introl L)) as [w' [E [I B]]].
      rewrite E. simpl. rewrite I, B. now split.
    + rewrite shutdown_rejected by now left. now split.
    + destruct w as [i b q [r0 d0 c0 n0 p0 a0 rl0 wl0 lm0] t].
      unfold post_close, bind, gets, set_host. project.
      match goal with
      | |- context [run_calls cs ?v] => destruct (IH v N L) as [I B]
      end.
      now split.
    + destruct w as [i b q [r0 d0 c0 n0 p0 a0 rl0 wl0 lm0] t].
      unfold user_config, bind, gets, set_host. project.
      match goal with
      | |- context [run_calls cs ?v] => destruct (IH v N L) as [I B]
      end.
      now split.
Qed.

(** C2.  On a freshly constructed engine whose display configuration
    resolves, [init] returns having handed to [addSystem], and so
    registered, exactly the ten Systems of [pipeline_order], each kind
    once: scene-node creation and scene-node sync before the camera, the
    camera before the viewport, the entity visuals before the scene-node
    removal, the removal before render submission, which comes last. *)
Theorem init_registers_the_pipeline_in_order (w0 : World) :
  config_resolves (host w0) = true ->
  let w1 := world_of (OgreEngine_ctor w0) in
  exists w',
    init w1 = Returns tt w'
    /\ filter is_EvAddSystem (new_events w1 w')
       = map EvAddSystem (systems (base w'))
    /\ map sys_kind (systems (base w')) = pipeline_order
    /\ NoDup (map sys_kind (systems (base w')))
    /\ registered_before OgreAddSceneNodeSystem OgreCameraSystem
         (systems (base w'))
    /\ registered_before OgreUpdateSceneNodeSystem OgreCameraSystem
         (systems (base w'))
    /\ registered_before OgreCameraSystem OgreViewportSystem
         (systems (base w'))
    /\ registered_before OgreEntitySystem OgreRemoveSceneNodeSystem
         (systems (base w'))
    /\ registered_before OgreRemoveSceneNodeSystem RenderSystem
         (systems (base w'))
    /\ last (map sys_kind (systems (base w'))) KeyboardSystem = RenderSystem.
Proof.
  intros C w1.
  pose proof (OgreEngine_ctor_spec w0) as S.
  assert (L1 : lifecycle (base w1) = Uninitialized)
    by (unfold w1; rewrite S; reflexivity).
  assert (C1 : config_resolves (host w1) = true)
    by (unfold w1; rewrite S; exact C).
  destruct (init_returns w1 L1 C1) as [w' [E [T [B _]]]].
  exists w'. split; [exact E|].
  assert (K : map sys_kind (systems (base w')) = pipeline_order)
    by (rewrite B; unfold w1; rewrite S; reflexivity).
  assert (R : systems (base w')
              = init_systems (m_keyboardSystem (impl w1))
                  (m_viewportSystem (impl w1)) (after_setupLog (host w1)))
    by (rewrite B; unfold w1; rewrite S; reflexivity).
  assert (Y : systems (base w1) = [])
    by (unfold w1; rewrite S; reflexivity).
  split.
  { erewrite new_events_app by exact T. rewrite R, Y.
    cbn [app]. rewrite !filter_app.
    rewrite (filter_none is_EvAddSystem (init_setup_events _ _)).
    - rewrite (filter_none is_EvAddSystem (map EvSystemInit _)).
      + rewrite app_nil_r. reflexivity.
      + intros e H. apply in_map_iff in H. now destruct H as [x [<- _]].
    - intros e H. unfold init_setup_events, setupLog_events in H.
      cbv zeta in H.
      repeat (apply in_app_or in H; destruct H as [H|H]);
        try (apply in_map_iff in H; destruct H as [x [<- _]]; reflexivity);
        try (destruct (_ =? _); simpl in H);
        try (unfold config_events in H; destruct (restoreConfig_ok _));
        simpl in H;
        repeat (destruct H as [<-|H]; [reflexivity|]);
        contradiction. }
  split; [exact K|].
  unfold registered_before. rewrite K. unfold pipeline_order.
  split.
  { repeat (constructor; [simpl; intuition discriminate|]). constructor. }
  split.
  { exists [KeyboardSystem], [OgreUpdateSceneNodeSystem],
      [OgreLightSystem; SkySystem; OgreEntitySystem; OgreViewportSystem;
       OgreRemoveSceneNodeSystem; RenderSystem].
    reflexivity. }
  split.
  { exists [KeyboardSystem; OgreAddSceneNodeSystem], [],
      [OgreLightSystem; SkySystem; OgreEntitySystem; OgreViewportSystem;
       OgreRemoveSceneNodeSystem; RenderSystem].
    reflexivity. }
  split.
  { exists [KeyboardSystem; OgreAddSceneNodeSystem;
            OgreUpdateSceneNodeSystem],
      [OgreLightSystem; SkySystem; OgreEntitySystem],
      [OgreRemoveSceneNodeSystem; RenderSystem].
    reflexivity. }
  split.
  { exists [KeyboardSystem; OgreAddSceneNodeSystem;
            OgreUpdateSceneNodeSystem; OgreCameraSystem; OgreLightSystem;
            SkySystem],
      [OgreViewportSystem], [RenderSystem].
    reflexivity. }
  split.
  { exists [KeyboardSystem; OgreAddSceneNodeSystem;
            OgreUpdateSceneNodeSystem; OgreCameraSystem; OgreLightSystem;
            SkySystem; OgreEntitySystem; OgreViewportSystem],
      [], [].
    reflexivity. }
  reflexivity.
Qed.

(** C3 (as amended).  On a freshly constructed engine whose display
    configuration resolves, [init] returns and records exactly, in this
    order: the log, the root made from the plugin manifest, the resource
    manifest and its locations, the display configuration, the window,
    the window listener, the mipmap default and the resource groups, the
    scene manager, the ambient light, the window handle and the input
    manager, and only then the registration of every System, followed by
    the Systems' own initialisation.  Eight Systems are constructed at
    their registration; the keyboard and viewport Systems were
    constructed by the engine's constructor, before [init] began. *)
Theorem init_steps_in_order (w0 : World) :
  config_resolves (host w0) = true ->
  let w1 := world_of (OgreEngine_ctor w0) in
  exists w',
    init w1 = Returns tt w'
    /\ new_events w0 w1
       = [ EvNewSystem (m_keyboardSystem (impl w1));
           EvNewSystem (m_viewportSystem (impl w1)) ]
    /\ new_events w1 w'
       = init_setup_events nullptr (host w1)
         ++ registration_events (m_keyboardSystem (impl w1))
              (m_viewportSystem (impl w1)) (after_setupLog (host w1))
         ++ map EvSystemInit
              (init_systems (m_keyboardSystem (impl w1))
                 (m_viewportSystem (impl w1)) (after_setupLog (host w1))).
Proof.
  intros C w1.
  pose proof (OgreEngine_ctor_spec w0) as S.
  assert (L1 : lifecycle (base w1) = Uninitialized)
    by (unfold w1; rewrite S; reflexivity).
  assert (C1 : config_resolves (host w1) = true)
    by (unfold w1; rewrite S; exact C).
  destruct (init_returns w1 L1 C1) as [w' [E [T _]]].
  exists w'. split; [exact E|]. split.
  - apply new_events_app. unfold w1. rewrite S. reflexivity.
  - apply new_events_app. rewrite T.
    unfold w1. rewrite S. reflexivity.
Qed.

(** C4.  When the persisted display configuration cannot be restored
    and the dialog is not confirmed, [init] ends the process with
    [EXIT_SUCCESS] right after the dialog; up to that point [addSystem]
    has not been called and the registry is as it was, which for a
    freshly constructed engine means empty. *)
Theorem init_exits_with_success_before_registering (w : World) :
  restoreConfig_ok (host w) = false ->
  showConfigDialog_ok (host w) = false ->
  exists w',
    init w = Exits EXIT_SUCCESS w'
    /\ new_events w w' = init_exit_events (m_root (impl w)) (host w)
    /\ (forall e, In e (new_events w w') -> is_EvAddSystem e = false)
    /\ systems (base w') = systems (base w)
    /\ (forall w0, w = world_of (OgreEngine_ctor w0) ->
        systems (base w') = []).
Proof.
  intros R D.
  assert (C : config_resolves (host w) = false)
    by (unfold config_resolves; rewrite R, D; reflexivity).
  destruct (init_exits w C) as [w' [E [T B]]].
  exists w'. split; [exact E|].
  assert (N : new_events w w'
              = init_exit_events (m_root (impl w)) (host w))
    by (apply new_events_app; exact T).
  split; [exact N|]. split.
  - rewrite N. intros e H. unfold init_exit_events, setupLog_events in H.
    repeat (apply in_app_or in H; destruct H as [H|H]);
      try (apply in_map_iff in H; destruct H as [x [<- _]]; reflexivity);
      try (destruct (_ =? _); simpl in H);
      simpl in H;
      repeat (destruct H as [<-|H]; [reflexivity|]);
      contradiction.
  - rewrite B. split; [reflexivity|].
    intros w0 ->. rewrite OgreEngine_ctor_spec. reflexivity.
Qed.

(** C5.  [shutdownInputManager] always returns with [m_inputManager]
    null, and changes nothing when it was null already.  On an
    initialized engine with a window, [shutdown] returns and records, in
    this order: the teardown of the Systems, the release of the input
    manager if there is one, the destruction of the window, the release
    of the root if there is one; afterwards the input manager and the
    root are null. *)
Theorem shutdown_tears_down_in_order (w : World) :
  lifecycle (base w) = Initialized \/ lifecycle (base w) = Running ->
  m_window (impl w) <> nullptr ->
  (forall v, exists v',
      shutdownInputManager v = Returns tt v'
      /\ inputManager v' = nullptr
      /\ (inputManager v = nullptr -> v' = v))
  /\ exists w',
      shutdown w = Returns tt w'
      /\ new_events w w'
         = map EvSystemShutdown (teardown_order (systems (base w)))
           ++ (if inputManager w =? nullptr then []
               else [EvDestroyInputSystem (inputManager w)])
           ++ [EvWindowDestroy (window w)]
           ++ (if root w =? nullptr then [] else [EvDeleteRoot (root w)])
      /\ inputManager w' = nullptr
      /\ root w' = nullptr.
Proof.
  intros L W. split.
  - intros v. destruct (shutdownInputManager_spec v) as [v' [E [I [U _]]]].
    exists v'. repeat split; assumption.
  - destruct (shutdown_spec w L W) as [w' [E [T [I _]]]].
    exists w'. split; [exact E|]. split.
    + apply new_events_app. exact T.
    + unfold inputManager, root. rewrite I. split; reflexivity.
Qed.

(** What an out-of-order [init] has done when the base class rejects
    it. *)
Lemma init_rejected_effect (w : World) :
  lifecycle (base w) <> Uninitialized ->
  config_resolves (host w) = true ->
  exists w',
    init w = Aborts LifecycleViolation w'
    /\ trace w'
       = trace w
         ++ init_setup_events (m_root (impl w)) (host w)
         ++ registration_events (m_keyboardSystem (impl w))
              (m_viewportSystem (impl w)) (after_setupLog (host w))
    /\ base w' = base w
    /\ impl w'
       = mkImplementation (fresh (after_setupLog (host w)) 1)
           (fresh (after_setupLog (host w)) 4) (m_keyboardSystem (impl w))
           (fresh (after_setupLog (host w)) 3) (m_viewportSystem (impl w))
           (fresh (after_setupLog (host w)) 2)
    /\ window_listeners (host w')
       = window_listeners (host w) ++ [fresh (after_setupLog (host w)) 2].
Proof.
  destruct w as [[mr mi mk ms mv mw] [lc sy] q [r d c n p a rl wl lm] t].
  unfold config_resolves. project. intros L C.
  destruct lc; [contradiction| | |];
    (destruct r; [|destruct d; [|discriminate]]);
    (destruct mr as [|old]; destruct lm as [|made];
     (eexists; split;
      [ unfold init; run; rewrite loadSections_spec; run;
        rewrite Engine_init_rejected by (project; discriminate);
        reflexivity
      | project; split; [|split; [|split]];
        flatten_trace; reflexivity ])).
Qed.

(** What an [init] has done when it leaves through [exit]. *)
Lemma init_exits_effect (w : World) :
  config_resolves (host w) = false ->
  exists w',
    init w = Exits EXIT_SUCCESS w'
    /\ trace w' = trace w ++ init_exit_events (m_root (impl w)) (host w)
    /\ base w' = base w
    /\ impl w'
       = mkImplementation (fresh (after_setupLog (host w)) 1)
           (m_inputManager (impl w)) (m_keyboardSystem (impl w))
           (m_sceneManager (impl w)) (m_viewportSystem (impl w))
           (m_window (impl w))
    /\ window_listeners (host w') = window_listeners (host w).
Proof.
  destruct w as [[mr mi mk ms mv mw] [lc sy] q [r d c n p a rl wl lm] t].
  unfold config_resolves. project. intros C.
  destruct r; [discriminate|]. destruct d; [discriminate|].
  destruct mr as [|old]; destruct lm as [|made];
    (eexists; split;
     [ unfold init; run; rewrite loadSections_spec; run; reflexivity
     | project; split; [|split; [|split]];
       flatten_trace; reflexivity ]).
Qed.

(** What an out-of-order [update] has done when the base class rejects
    it: the message pump has run. *)
Lemma update_rejected_effect (milliSeconds : Z) (w : World) :
  lifecycle (base w) = Uninitialized \/ lifecycle (base w) = ShutDown ->
  exists w',
    update milliSeconds w = Aborts LifecycleViolation w'
    /\ trace w' = trace w ++ EvMessagePump :: pumped w
    /\ base w' = base w
    /\ impl w' = impl w
    /\ window_listeners (host w') = window_listeners (host w).
Proof.
  intros L. unfold update. unfold bind at 1. rewrite messagePump_spec.
  unfold Engine_update, bind, gets. project.
  destruct L as [-> | ->];
    (eexists; split; [reflexivity|]; repeat split).
Qed.

(** C6 (as amended).  A lifecycle call returns only along an edge of
    the state machine, Uninitialized to Initialized by [init],
    Initialized or Running to Running by [update], Initialized or
    Running to ShutDown by [shutdown], so the state never moves
    backwards.  A call made out of order does not return and leaves the
    lifecycle state and the registry as they were.  An out-of-order
    [shutdown] is rejected as fatal at once, having done nothing; an
    out-of-order [update] is rejected as fatal after the message pump
    has run.  An out-of-order [init] first runs its whole setup again
    (a new root replacing the old one, the resource locations once
    more, the display configuration, a new window with one more
    listener registration, scene manager, ambient light, input
    manager), hands every System to [addSystem] again, none of which is
    registered, and only then is rejected as fatal; when its display
    configuration does not resolve, it ends the process with
    [EXIT_SUCCESS] right after the dialog, before the rejection is
    reached. *)
Theorem lifecycle_calls_move_forward_or_fail (c : Call) (w : World) :
  (forall w',
      run_call c w = Returns tt w' ->
      in_order c (lifecycle (base w)) = true
      /\ lifecycle (base w') = target c (lifecycle (base w))
      /\ (rank (lifecycle (base w)) <= rank (lifecycle (base w')))%nat)
  /\ (in_order c (lifecycle (base w)) = false ->
      exists w',
        run_call c w
        = (if is_CallInit c && negb (config_resolves (host w))
           then Exits EXIT_SUCCESS w'
           else Aborts LifecycleViolation w')
        /\ new_events w w' = out_of_order_events c w
        /\ base w' = base w
        /\ impl w' = out_of_order_impl c w
        /\ window_listeners (host w') = out_of_order_listeners c w).
Proof.
  destruct c as [|ms| |win|r d];
    cbn [run_call is_CallInit andb out_of_order_events out_of_order_impl
         out_of_order_listeners].
  - destruct (config_resolves (host w)) eqn:C; cbn [negb].
    + destruct (lifecycle (base w)) eqn:L.
      * destruct (init_returns w L C) as [w1 [E [_ [B _]]]].
        split; [|discriminate].
        intros w' H. rewrite E in H. injection H as <-.
        rewrite B. simpl. repeat split. lia.
      * destruct (init_rejected_effect w) as [w1 [E [T [B [I WL]]]]];
          [rewrite L; discriminate | exact C |].
        rewrite E. split; [discriminate|]. intros _. exists w1.
        split; [reflexivity|].
        split; [apply new_events_app; exact T|].
        split; [exact B|]. split; [exact I | exact WL].
      * destruct (init_rejected_effect w) as [w1 [E [T [B [I WL]]]]];
          [rewrite L; discriminate | exact C |].
        rewrite E. split; [discriminate|]. intros _. exists w1.
        split; [reflexivity|].
        split; [apply new_events_app; exact T|].
        split; [exact B|]. split; [exact I | exact WL].
      * destruct (init_rejected_effect w) as [w1 [E [T [B [I WL]]]]];
          [rewrite L; discriminate | exact C |].
        rewrite E. split; [discriminate|]. intros _. exists w1.
        split; [reflexivity|].
        split; [apply new_events_app; exact T|].
        split; [exact B|]. split; [exact I | exact WL].
    + destruct (init_exits_effect w C) as [w1 [E [T [B [I WL]]]]].
      rewrite E. split; [discriminate|]. intros _. exists w1.
      split; [reflexivity|].
      split; [apply new_events_app; exact T|].
      split; [exact B|]. split; [exact I | exact WL].
  - destruct (lifecycle (base w)) eqn:L.
    + destruct (update_rejected_effect ms w) as [w1 [E [T [B [I WL]]]]];
        [now left|].
      rewrite E. split; [discriminate|]. intros _. exists w1.
      split; [reflexivity|].
      split; [apply new_events_app; exact T|].
      split; [exact B|]. split; [exact I | exact WL].
    + rewrite update_spec by now left.
      split; [|discriminate].
      intros w' H. injection H as <-. simpl. repeat split. lia.
    + rewrite update_spec by now right.
      split; [|discriminate].
      intros w' H. injection H as <-. simpl. repeat split. lia.
    + destruct (update_rejected_effect ms w) as [w1 [E [T [B [I WL]]]]];
        [now right|].
      rewrite E. split; [discriminate|]. intros _. exists w1.
      split; [reflexivity|].
      split; [apply new_events_app; exact T|].
      split; [exact B|]. split; [exact I | exact WL].
  - split.
    + intros w' H. apply shutdown_returns_inv in H.
      destruct H as [[L | L] [L' _]]; rewrite L, L'; simpl;
        repeat split; lia.
    + intros O.
      assert (R : shutdown w = Aborts LifecycleViolation w)
        by (destruct (lifecycle (base w)) eqn:L; try discriminate O;
            apply shutdown_rejected; rewrite L; auto).
      exists w. split; [exact R|].
      split; [unfold new_events; now rewrite skipn_all|].
      repeat split.
  - split; [|discriminate].
    intros w' H. unfold post_close, bind, gets, set_host in H.
    injection H as <-. simpl.
    destruct (lifecycle (base w)); repeat split; simpl; lia.
  - split; [|discriminate].
    intros w' H. unfold user_config, bind, gets, set_host in H.
    injection H as <-. simpl.
    destruct (lifecycle (base w)); repeat split; simpl; lia.
Qed.


(** C10.  From the engine's construction on, whatever lifecycle calls
    and host events follow and however they end, [keyboardSystem] and
    [viewportSystem] are the non-null objects the constructor made.
    Right after construction, and as long as [init] has not been called,
    [inputManager], [root], [sceneManager] and [window] are null.  After
    a [shutdown] that returns, [inputManager] and [root] are null. *)
Theorem accessors_over_the_lifetime (w0 : World) (cs : list Call) :
  let w1 := world_of (OgreEngine_ctor w0) in
  let w2 := world_of (run_calls cs w1) in
  (keyboardSystem w2 = keyboardSystem w1
   /\ viewportSystem w2 = viewportSystem w1
   /\ sys_addr (keyboardSystem w1) <> nullptr
   /\ sys_addr (viewportSystem w1) <> nullptr
   /\ In (EvNewSystem (keyboardSystem w1)) (new_events w0 w1)
   /\ In (EvNewSystem (viewportSystem w1)) (new_events w0 w1))
  /\ (inputManager w1 = nullptr /\ root w1 = nullptr
      /\ sceneManager w1 = nullptr /\ window w1 = nullptr)
  /\ (existsb is_CallInit cs = false ->
      inputManager w2 = nullptr /\ root w2 = nullptr
      /\ sceneManager w2 = nullptr /\ window w2 = nullptr)
  /\ (forall w w',
         shutdown w = Returns tt w' ->
         inputManager w' = nullptr /\ root w' = nullptr).
Proof.
  intros w1 w2.
  pose proof (OgreEngine_ctor_spec w0) as S.
  destruct (keeps_run_calls cs w1) as [K V]. fold w2 in K, V.
  assert (N : new_events w0 w1
              = [ EvNewSystem (keyboardSystem w1);
                  EvNewSystem (viewportSystem w1) ])
    by (apply new_events_app; unfold w1; rewrite S; reflexivity).
  assert (I1 : impl w1
               = mkImplementation nullptr nullptr
                   (mkSystemPtr KeyboardSystem
                      (fresh (next_addr (host w0)) 1))
                   nullptr
                   (mkSystemPtr OgreViewportSystem
                      (fresh (next_addr (host w0)) 2))
                   nullptr)
    by (unfold w1; rewrite S; reflexivity).
  split.
  { unfold keyboardSystem, viewportSystem in *. rewrite N.
    repeat split; try assumption.
    - rewrite I1. discriminate.
    - rewrite I1. discriminate.
    - now left.
    - right. now left. }
  split.
  { unfold inputManager, root, sceneManager, window. rewrite I1.
    repeat split. }
  split.
  { intros NI.
    destruct (no_init_no_handles cs w1 NI) as [I _].
    - unfold w1. rewrite S. reflexivity.
    - fold w2 in I.
      unfold inputManager, root, sceneManager, window. rewrite I, I1.
      repeat split. }
  intros w w' H. apply shutdown_returns_inv in H.
  unfold inputManager, root. tauto.
Qed.

(** ** Further properties of the source *)

Lemma fresh_spec (a : N) (k : nat) : fresh a k = a + N.of_nat k.
Proof.
  unfold fresh. induction k as [|k IH].
  - simpl. now rewrite N.add_0_r.
  - rewrite Nat.iter_succ, IH, N.succ_pos_spec. lia.
Qed.

Lemma after_setupLog_le (h : Host) : next_addr h <= after_setupLog h.
Proof.
  unfold after_setupLog. destruct (static_logManager h =? nullptr).
  - rewrite fresh_spec. lia.
  - lia.
Qed.

(** [init] ends in one of three ways. *)
Lemma init_outcome (w : World) :
  (lifecycle (base w) = Uninitialized
   /\ config_resolves (host w) = true
   /\ exists w', init w = Returns tt w')
  \/ (config_resolves (host w) = false
      /\ exists w', init w = Exits EXIT_SUCCESS w')
  \/ (lifecycle (base w) <> Uninitialized
      /\ config_resolves (host w) = true
      /\ exists w', init w = Aborts LifecycleViolation w').
Proof.
  destruct (config_resolves (host w)) eqn:C.
  - destruct (lifecycle (base w)) eqn:L.
    + left. destruct (init_returns w L C) as [w' [E _]]. eauto.
    + right. right. destruct (init_rejected w) as [w' [E _]];
        [rewrite L; discriminate | exact C |].
      repeat split; [discriminate | eauto].
    + right. right. destruct (init_rejected w) as [w' [E _]];
        [rewrite L; discriminate | exact C |].
      repeat split; [discriminate | eauto].
    + right. right. destruct (init_rejected w) as [w' [E _]];
        [rewrite L; discriminate | exact C |].
      repeat split; [discriminate | eauto].
  - right. left. destruct (init_exits w C) as [w' [E _]]. eauto.
Qed.

Lemma init_returns_inv (w w' : World) :
  init w = Returns tt w' ->
  lifecycle (base w) = Uninitialized /\ config_resolves (host w) = true.
Proof.
  intros H.
  destruct (init_outcome w) as [[L [C _]] | [[_ [v E]] | [_ [_ [v E]]]]].
  - now split.
  - rewrite E in H. discriminate H.
  - rewrite E in H. discriminate H.
Qed.

(** X1.  Whatever state the engine is in, [init] never follows a null
    pointer: every pointer it dereferences was assigned earlier in the
    same call.  It returns, or leaves through [exit(EXIT_SUCCESS)], or
    is rejected by the base class. *)
Theorem init_never_follows_a_null_pointer (w : World) :
  (forall w', init w <> Aborts NullDereference w')
  /\ exists w',
      init w = Returns tt w'
      \/ init w = Exits EXIT_SUCCESS w'
      \/ init w = Aborts LifecycleViolation w'.
Proof.
  destruct (init_outcome w) as [[_ [_ [v E]]] | [[_ [v E]] | [_ [_ [v E]]]]];
    (split; [intros w' H; rewrite E in H; discriminate H | exists v; auto]).
Qed.

(** X2.  When [init] returns, [root], [window], [sceneManager] and
    [inputManager] are four different non-null objects, each made during
    this call, and the engine listens on its own window. *)
Theorem init_leaves_four_new_handles (w w' : World) :
  init w = Returns tt w' ->
  NoDup [root w'; window w'; sceneManager w'; inputManager w']
  /\ next_addr (host w) < root w'
  /\ next_addr (host w) < window w'
  /\ next_addr (host w) < sceneManager w'
  /\ next_addr (host w) < inputManager w'
  /\ In (window w') (window_listeners (host w')).
Proof.
  intros H. destruct (init_returns_inv w w' H) as [L C].
  destruct (init_returns w L C) as [v [E [_ [_ [I [WL _]]]]]].
  rewrite E in H. injection H as <-.
  unfold root, window, sceneManager, inputManager.
  rewrite I, WL. cbn [m_root m_window m_sceneManager m_inputManager].
  pose proof (after_setupLog_le (host w)) as A.
  rewrite !fresh_spec. split.
  - repeat constructor; simpl; lia.
  - repeat split; try lia. apply in_or_app. right. now left.
Qed.

(** X3.  Releasing the input manager twice is the same as releasing it
    once: the second call finds the handle null and does nothing. *)
Theorem shutdownInputManager_idempotent (w : World) :
  (shutdownInputManager ;; shutdownInputManager) w = shutdownInputManager w.
Proof.
  destruct w as [[mr mi mk ms mv mw] b q h t].
  destruct mi; reflexivity.
Qed.

(** X4.  A [shutdown] that returns destroys the window but keeps its
    pointer: afterwards [window] still returns that non-null pointer,
    and [sceneManager] what it returned before; only [inputManager] and
    [root] are reset. *)
Theorem shutdown_keeps_the_window_pointer (w w' : World) :
  shutdown w = Returns tt w' ->
  window w' = window w
  /\ window w' <> nullptr
  /\ In (EvWindowDestroy (window w')) (new_events w w')
  /\ sceneManager w' = sceneManager w.
Proof.
  intros H.
  destruct (shutdown_returns_inv w w' H) as [L _].
  destruct (N.eq_dec (m_window (impl w)) nullptr) as [Hz|NZ].
  - exfalso. revert H. unfold shutdown. unfold bind at 1.
    rewrite Engine_shutdown_spec by exact L.
    destruct w as [[mr mi mk ms mv mw] b q h t].
    cbn [m_window impl] in Hz. subst mw.
    destruct mi; run; discriminate.
  - destruct (shutdown_spec w L NZ) as [v [E [T [I _]]]].
    rewrite E in H. injection H as <-.
    unfold window, sceneManager. rewrite I.
    cbn [m_window m_sceneManager].
    repeat split; try assumption.
    erewrite new_events_app by exact T.
    apply in_or_app. right. apply in_or_app. right. now left.
Qed.

(** X5.  [loadConfig] tries the persisted configuration first and shows
    the dialog only when that fails; it returns exactly when one of the
    two succeeds and otherwise exits with [EXIT_SUCCESS]; the engine and
    the host are left as they were. *)
Theorem loadConfig_shows_the_dialog_only_after_a_failed_restore (w : World) :
  m_root (impl w) <> nullptr ->
  exists w',
    loadConfig w
    = (if config_resolves (host w) then Returns tt w'
       else Exits EXIT_SUCCESS w')
    /\ new_events w w' = config_events (host w)
    /\ existsb is_EvShowConfigDialog (new_events w w')
       = negb (restoreConfig_ok (host w))
    /\ impl w' = impl w /\ base w' = base w /\ host w' = host w.
Proof.
  destruct w as [[mr mi mk ms mv mw] b q [r d c n p a rl wl lm] t].
  cbn [m_root impl]. intros R.
  destruct mr as [|old]; [contradiction|].
  unfold config_resolves, config_events. project.
  destruct r; [|destruct d];
    (eexists; split; [run; reflexivity|]);
    (split;
     [ apply new_events_app; project;
       rewrite <- ?app_assoc; reflexivity |]);
    (split;
     [ erewrite new_events_app
         by (project; rewrite <- ?app_assoc; reflexivity);
       reflexivity
     | repeat split ]).
Qed.

(** X6.  [loadResources] keeps no record of what it has registered:
    run twice, it loads the manifest twice and makes every
    [addResourceLocation] call twice, in the same order, so the backend
    receives each location of the manifest two times; nothing else of
    the engine is touched. *)
Theorem loadResources_twice_registers_twice (w : World) :
  exists w',
    (loadResources ;; loadResources) w = Returns tt w'
    /\ new_events w w'
       = (EvConfigLoad RESOURCES_CFG
          :: map location_event
               (manifest_locations (resources_cfg (host w))))
         ++ (EvConfigLoad RESOURCES_CFG
             :: map location_event
                  (manifest_locations (resources_cfg (host w))))
    /\ resource_locations (host w')
       = resource_locations (host w)
         ++ manifest_locations (resources_cfg (host w))
         ++ manifest_locations (resources_cfg (host w))
    /\ impl w' = impl w /\ base w' = base w.
Proof.
  destruct w as [i b q [r d c n p a rl wl lm] t].
  eexists. split.
  { unfold bind at 1. unfold loadResources at 1.
    unfold bind at 1. unfold emit at 1.
    unfold bind at 1. unfold gets at 1. project.
    rewrite loadSections_spec. project.
    unfold loadResources.
    unfold bind at 1. unfold emit at 1.
    unfold bind at 1. unfold gets at 1.
    cbn [host host_with_resource_locations resources_cfg].
    rewrite loadSections_spec. reflexivity. }
  cbn [host impl base trace host_with_resource_locations resource_locations
       resources_cfg].
  split.
  { apply new_events_app. cbn [trace].
    rewrite <- !app_assoc. reflexivity. }
  split; [now rewrite <- app_assoc | now split].
Qed.

Lemma parse_handle_lexical_cast (n : N) :
  parse_handle (lexical_cast n) = Some n.
Proof.
  unfold parse_handle, lexical_cast.
  rewrite NilZero.usu.
  - simpl. now rewrite DecimalN.Unsigned.of_to.
  - destruct n as [|p]; [discriminate|].
    simpl. apply DecimalPos.Unsigned.to_uint_nonnil.
Qed.

(** X7.  On an engine with a window, [setupInputManager] asks the
    window for its handle and creates the input system with the single
    parameter "WINDOW", whose text reads back, as a decimal number, to
    that handle; the new input manager is a new non-null object. *)
Theorem setupInputManager_hands_over_the_window_handle (w : World) :
  m_window (impl w) <> nullptr ->
  exists w' text,
    setupInputManager w = Returns tt w'
    /\ new_events w w'
       = [ EvGetCustomAttribute (window w) "WINDOW";
           EvCreateInputSystem [("WINDOW", text)] (inputManager w') ]
    /\ parse_handle text = Some (native_handle (host w))
    /\ inputManager w' <> nullptr
    /\ next_addr (host w) < inputManager w'.
Proof.
  destruct w as [[mr mi mk ms mv mw] b q [r d c n p a rl wl lm] t].
  cbn [m_window impl]. intros W.
  destruct mw as [|win]; [contradiction|].
  eexists. exists (lexical_cast n). split; [run; reflexivity|].
  unfold window, inputManager. project.
  split; [apply new_events_app; project; now rewrite <- app_assoc|].
  split; [apply parse_handle_lexical_cast|].
  split; [discriminate|].
  rewrite N.succ_pos_spec. lia.
Qed.

Lemma times_setupLog_made (n : nat) (w : World) :
  static_logManager (host w) <> nullptr ->
  times n setupLog w
  = Returns tt
      (mkWorld (impl w) (base w) (game_quit w) (host w)
         (trace w
            ++ repeat (EvCreateLog (static_logManager (host w)) "default"
                         true false false) n)).
Proof.
  revert w. induction n as [|n IH];
    intros [i b q [r d c k p a rl wl lm] t]; project; intros M.
  - simpl. unfold ret. now rewrite app_nil_r.
  - destruct lm as [|made]; [contradiction|].
    cbn [times]. unfold bind at 1.
    replace (setupLog
               (mkWorld i b q (mkHost r d c k p a rl wl (N.pos made)) t))
      with (Returns tt
              (mkWorld i b q (mkHost r d c k p a rl wl (N.pos made))
                 (t ++ [EvCreateLog (N.pos made) "default" true false
                          false])))
      by (run; reflexivity).
    rewrite IH by (project; discriminate). project.
    cbn [repeat]. now rewrite <- app_assoc.
Qed.

(** X8.  However often [setupLog] runs, the log manager is made at most
    once: the first run makes it if the process has none yet, and every
    run, first or later, creates the log "default" on that one manager. *)
Theorem setupLog_makes_the_log_manager_once (n : nat) (w : World) :
  exists w' manager,
    times (S n) setupLog w = Returns tt w'
    /\ manager <> nullptr
    /\ static_logManager (host w') = manager
    /\ (static_logManager (host w) <> nullptr ->
        manager = static_logManager (host w))
    /\ new_events w w'
       = (if static_logManager (host w) =? nullptr
          then [EvNewLogManager manager] else [])
         ++ repeat (EvCreateLog manager "default" true false false) (S n).
Proof.
  destruct w as [i b q [r d c k p a rl wl lm] t].
  destruct lm as [|made].
  - eexists. exists (fresh a 1). split.
    { cbn [times]. unfold bind at 1.
      replace (setupLog (mkWorld i b q (mkHost r d c k p a rl wl 0) t))
        with (Returns tt
                (mkWorld i b q
                   (mkHost r d c k p (fresh a 1) rl wl (fresh a 1))
                   ((t ++ [EvNewLogManager (fresh a 1)])
                    ++ [EvCreateLog (fresh a 1) "default" true false
                          false])))
        by (run; reflexivity).
      rewrite times_setupLog_made by (project; discriminate).
      reflexivity. }
    project. split; [discriminate|]. split; [reflexivity|].
    split; [intros X; now contradiction X|].
    apply new_events_app. project. cbn [N.eqb nullptr repeat app].
    now rewrite <- !app_assoc.
  - eexists. exists (N.pos made). split.
    { apply times_setupLog_made. project. discriminate. }
    project. split; [discriminate|]. split; [reflexivity|].
    split; [reflexivity|].
    now apply new_events_app.
Qed.

(** X9.  However [update] ends, it leaves every member of the engine as
    it was: no frame changes what the accessors return. *)
Theorem update_leaves_the_members (milliSeconds : Z) (w : World) :
  impl (world_of (update milliSeconds w)) = impl w.
Proof.
  destruct (lifecycle (base w)) eqn:L.
  - destruct (update_rejected milliSeconds w) as [w' [E [I _]]];
      [now left|]. now rewrite E.
  - rewrite update_spec by now left. reflexivity.
  - rewrite update_spec by now right. reflexivity.
  - destruct (update_rejected milliSeconds w) as [w' [E [I _]]];
      [now right|]. now rewrite E.
Qed.

Lemma pumped_quit_iff (w : World) :
  existsb is_EvGameQuit (pumped w) = true
  <-> In (m_window (impl w)) (pending_close (host w))
      /\ In (m_window (impl w)) (window_listeners (host w)).
Proof.
  split.
  - intros H. apply existsb_exists in H. destruct H as [e [He Q]].
    destruct e; try discriminate Q.
    apply pump_events_kind in He.
    destruct He as [win [Hq [Hl [X | [_ ->]]]]]; [discriminate X|].
    now split.
  - intros [Hq Hl]. apply existsb_exists. exists EvGameQuit.
    split; [|reflexivity]. now apply pump_events_quit.
Qed.

(** X10.  After an [update] on an initialized engine the quit flag is
    set exactly when it was set before or a close request for the
    engine's own window was pending while the engine listened on that
    window; requests for other windows never raise it. *)
Theorem update_raises_quit_only_for_its_own_window
    (milliSeconds : Z) (w : World) :
  lifecycle (base w) = Initialized \/ lifecycle (base w) = Running ->
  game_quit (world_of (update milliSeconds w)) = true
  <-> game_quit w = true
      \/ (In (m_window (impl w)) (pending_close (host w))
          /\ In (m_window (impl w)) (window_listeners (host w))).
Proof.
  intros L. rewrite update_spec by exact L. cbn [world_of game_quit].
  unfold quit_after. rewrite orb_true_iff, pumped_quit_iff. reflexivity.
Qed.

(** *** Commands that undo nothing *)

Lemma grows_refl (w : World) : grows w w.
Proof.
  repeat split; auto; exists []; now rewrite app_nil_r.
Qed.

Lemma grows_trans (w1 w2 w3 : World) :
  grows w1 w2 -> grows w2 w3 -> grows w1 w3.
Proof.
  intros [Q1 [[l1 R1] [M1 [e1 T1]]]] [Q2 [[l2 R2] [M2 [e2 T2]]]].
  repeat split.
  - auto.
  - exists (l1 ++ l2). now rewrite R2, R1, app_assoc.
  - intros M. rewrite M2; rewrite M1; auto.
  - exists (e1 ++ e2). now rewrite T2, T1, app_assoc.
Qed.

Lemma steady_bind {A B} (c : M A) (k : A -> M B) :
  steady c -> (forall a, steady (k a)) -> steady (bind c k).
Proof.
  intros Hc Hk w. unfold bind. specialize (Hc w).
  destruct (c w) as [a w1|code w1|f w1]; simpl in *; try assumption.
  exact (grows_trans _ _ _ Hc (Hk a w1)).
Qed.

Lemma steady_ret {A} (a : A) : steady (ret a).
Proof. intros w. apply grows_refl. Qed.

Lemma steady_gets {A} (f : World -> A) : steady (gets f).
Proof. intros w. apply grows_refl. Qed.

Lemma steady_abort {A} (f : Failure) : steady (@abort A f).
Proof. intros w. apply grows_refl. Qed.

Lemma steady_exit {A} (code : Z) : steady (@exit A code).
Proof. intros w. apply grows_refl. Qed.

Lemma steady_deref (p : Ptr) : steady (deref p).
Proof.
  unfold deref. destruct (p =? nullptr); intros w; apply grows_refl.
Qed.

Ltac steady_direct :=
  intros [i b q [r d c n p a rl wl lm] t];
  cbv -[app erase_first]; cbv [nullptr];
  repeat split;
  first
    [ assumption
    | intros; assumption
    | intros; reflexivity
    | exists []; now rewrite app_nil_r
    | eexists; rewrite <- ?app_assoc; reflexivity
    | idtac ].

Lemma steady_emit (e : Event) : steady (emit e).
Proof. steady_direct. Qed.

Lemma steady_set_impl (i' : Implementation) : steady (set_impl i').
Proof. steady_direct. Qed.

Lemma steady_set_base (b' : EngineBase) : steady (set_base b').
Proof. steady_direct. Qed.

Lemma steady_alloc : steady alloc.
Proof. steady_direct. Qed.

Lemma steady_set_m_root (x : Ptr) : steady (set_m_root x).
Proof. steady_direct. Qed.

Lemma steady_set_m_inputManager (x : Ptr) : steady (set_m_inputManager x).
Proof. steady_direct. Qed.

Lemma steady_set_m_sceneManager (x : Ptr) : steady (set_m_sceneManager x).
Proof. steady_direct. Qed.

Lemma steady_set_m_window (x : Ptr) : steady (set_m_window x).
Proof. steady_direct. Qed.

Lemma steady_addResourceLocation (location type group : string) :
  steady (addResourceLocation location type group).
Proof. steady_direct. Qed.

Lemma steady_addWindowEventListener (win : Ptr) :
  steady (addWindowEventListener win).
Proof. steady_direct. Qed.

Lemma steady_removeWindowEventListener (win : Ptr) :
  steady (removeWindowEventListener win).
Proof. steady_direct. Qed.

Lemma steady_take_pending_close : steady take_pending_close.
Proof. steady_direct. Qed.

Lemma steady_Game_quit : steady Game_quit.
Proof. steady_direct. Qed.

Lemma steady_post_close (win : Ptr) : steady (post_close win).
Proof. steady_direct. Qed.

Lemma steady_user_config (restore dialog : bool) :
  steady (user_config restore dialog).
Proof. steady_direct. Qed.

Lemma steady_setupLog : steady setupLog.
Proof.
  intros [i b q [r d c n p a rl wl lm] t].
  destruct lm as [|made];
    (cbv -[app]; cbv [nullptr];
     repeat split;
     first
       [ intros; assumption
       | intros; reflexivity
       | intros X; exfalso; apply X; reflexivity
       | exists []; now rewrite app_nil_r
       | eexists; rewrite <- ?app_assoc; reflexivity ]).
Qed.

Lemma steady_forEach {A} (body : A -> M unit) (l : list A) :
  (forall x, steady (body x)) -> steady (forEach body l).
Proof.
  intros H. induction l as [|x l IH]; simpl.
  - apply steady_ret.
  - apply steady_bind; [apply H | intros _; exact IH].
Qed.

Create HintDb steady.

#[local] Hint Resolve steady_ret steady_gets steady_abort steady_exit
  steady_deref steady_emit steady_set_impl steady_set_base steady_alloc
  steady_set_m_root steady_set_m_inputManager steady_set_m_sceneManager
  steady_set_m_window steady_addResourceLocation
  steady_addWindowEventListener steady_removeWindowEventListener
  steady_take_pending_close steady_Game_quit steady_post_close
  steady_user_config steady_setupLog : steady.

Ltac steady_tac :=
  repeat first
    [ progress cbv beta zeta
    | solve [auto with steady]
    | apply steady_forEach; intros ?
    | match goal with
      | |- steady (if ?b then _ else _) => destruct b
      | |- steady (match ?x with _ => _ end) => destruct x
      end
    | apply steady_bind; [|intros ?] ].

Lemma steady_loadSections (config : ConfigFile) :
  steady (loadSections config).
Proof.
  induction config as [|[sec content] more IH]; simpl.
  - apply steady_ret.
  - apply steady_bind; [|intros _; exact IH].
    unfold loadSection. steady_tac.
Qed.

#[local] Hint Resolve steady_loadSections : steady.

Lemma steady_init : steady init.
Proof.
  unfold init, loadResources, loadConfig, m_root_reset, setupSceneManager,
    setupLighting, setupInputManager, addNewSystem, new_system,
    Engine_addSystem, Engine_init.
  steady_tac.
Qed.

Lemma steady_update (milliSeconds : Z) : steady (update milliSeconds).
Proof.
  unfold update, messagePump, deliverClose, windowClosing, Engine_update.
  steady_tac.
Qed.

Lemma steady_shutdown : steady shutdown.
Proof.
  unfold shutdown, Engine_shutdown, shutdownInputManager, m_root_reset.
  steady_tac.
Qed.

Lemma steady_OgreEngine_dtor : steady OgreEngine_dtor.
Proof.
  unfold OgreEngine_dtor, Implementation_dtor, m_root_reset. steady_tac.
Qed.

Lemma steady_run_calls (cs : list Call) : steady (run_calls cs).
Proof.
  apply steady_forEach. intros [|ms| |win|r d]; simpl.
  - apply steady_init.
  - apply steady_update.
  - apply steady_shutdown.
  - apply steady_post_close.
  - apply steady_user_config.
Qed.

(** X11.  Nothing in the engine clears the quit flag: once it is set it
    stays set through every sequence of [init], [update] and [shutdown]
    calls and host events, however the sequence ends. *)
Theorem quit_flag_is_never_cleared (cs : list Call) (w : World) :
  game_quit w = true ->
  game_quit (world_of (run_calls cs w)) = true.
Proof.
  intros Q. destruct (steady_run_calls cs w) as [H _]. auto.
Qed.

(** X12.  Through every sequence of lifecycle calls and host events the
    search paths registered with the backend only grow: what was
    registered stays registered, in place, and the log manager, once
    made, is never replaced. *)
Theorem registrations_are_never_undone (cs : list Call) (w : World) :
  (exists more,
      resource_locations (host (world_of (run_calls cs w)))
      = resource_locations (host w) ++ more)
  /\ (static_logManager (host w) <> nullptr ->
      static_logManager (host (world_of (run_calls cs w)))
      = static_logManager (host w)).
Proof.
  destruct (steady_run_calls cs w) as [_ [R [M _]]]. now split.
Qed.

(** *** The destructor *)

Lemma OgreEngine_dtor_spec (w : World) :
  exists w',
    OgreEngine_dtor w = Returns tt w'
    /\ trace w'
       = trace w
         ++ (if m_root (impl w) =? nullptr then []
             else [EvDeleteRoot (m_root (impl w))])
    /\ window_listeners (host w')
       = erase_first (m_window (impl w)) (window_listeners (host w)).
Proof.
  destruct w as [[mr mi mk ms mv mw] b q [r d c n p a rl wl lm] t].
  destruct mr as [|old];
    (eexists; split; [cbv -[app erase_first]; reflexivity|]);
    project; cbv [nullptr N.eqb]; rewrite ?app_nil_r; now split.
Qed.

Lemma count_erase_first_added (x y : Ptr) (l : list Ptr) :
  count_occ N.eq_dec (erase_first x (l ++ [x])) y = count_occ N.eq_dec l y.
Proof.
  induction l as [|z l IH]; cbn [app erase_first].
  - now rewrite N.eqb_refl.
  - destruct (N.eqb_spec z x) as [->|NE].
    + rewrite count_occ_app. simpl.
      destruct (N.eq_dec x y); [apply Nat.add_1_r | apply Nat.add_0_r].
    + cbn [count_occ]. rewrite IH. reflexivity.
Qed.

(** X13.  When an engine is initialized and then destroyed without
    [shutdown], the destructor deletes the root and, of the objects the
    setup made, nothing else: the input system and the window that
    [init] created are never destroyed.  The listener registration that
    [init] added is taken back, so the backend holds, window by window,
    as many registrations as before [init]. *)
Theorem destructor_without_shutdown_releases_only_the_root
    (w w1 : World) :
  init w = Returns tt w1 ->
  exists w2,
    OgreEngine_dtor w1 = Returns tt w2
    /\ new_events w1 w2 = [EvDeleteRoot (root w1)]
    /\ inputManager w1 <> nullptr
    /\ window w1 <> nullptr
    /\ (forall x,
           count_occ N.eq_dec (window_listeners (host w2)) x
           = count_occ N.eq_dec (window_listeners (host w)) x).
Proof.
  intros H. destruct (init_returns_inv w w1 H) as [L C].
  destruct (init_returns w L C) as [v [E [_ [_ [I [WL _]]]]]].
  rewrite E in H. injection H as <-.
  destruct (OgreEngine_dtor_spec v) as [w2 [D [T R]]].
  exists w2. split; [exact D|].
  unfold root, inputManager, window.
  rewrite I in T, R |- *. cbn [m_root m_window m_inputManager] in T, R |- *.
  rewrite fresh_spec in T |- *.
  split.
  { apply new_events_app. rewrite T.
    destruct (N.eqb_spec (after_setupLog (host w) + N.of_nat 1) nullptr)
      as [Z0|_]; [unfold nullptr in Z0; lia | reflexivity]. }
  rewrite !fresh_spec. unfold nullptr.
  split; [lia|]. split; [lia|].
  intros x. rewrite R, WL. rewrite fresh_spec.
  apply count_erase_first_added.
Qed.

(** X14.  After a [shutdown] that returned, the destructor deletes
    nothing: the root that [shutdown] released is not deleted a second
    time, and no other backend object is touched. *)
Theorem destructor_after_shutdown_deletes_nothing (w w1 : World) :
  shutdown w = Returns tt w1 ->
  exists w2,
    OgreEngine_dtor w1 = Returns tt w2
    /\ new_events w1 w2 = [].
Proof.
  intros H. apply shutdown_returns_inv in H.
  destruct H as [_ [_ [_ R]]].
  destruct (OgreEngine_dtor_spec w1) as [w2 [D [T _]]].
  exists w2. split; [exact D|].
  apply new_events_app. rewrite T, R. reflexivity.
Qed.

(** *** A whole life of the engine *)

Lemma frames_spec (frames : list Z) (w : World) :
  lifecycle (base w) = Initialized \/ lifecycle (base w) = Running ->
  exists w',
    forEach update frames w = Returns tt w'
    /\ impl w' = impl w
    /\ systems (base w') = systems (base w)
    /\ (lifecycle (base w') = Initialized \/ lifecycle (base w') = Running).
Proof.
  revert w. induction frames as [|ms frames IH]; intros w L.
  - exists w. repeat split; assumption.
  - cbn [forEach]. unfold bind at 1. rewrite update_spec by exact L.
    match goal with
    | |- context [forEach update frames ?v] =>
        destruct (IH v) as [w' [E [I [S L']]]]; [right; reflexivity|]
    end.
    exists w'. split; [exact E|]. repeat split; assumption.
Qed.

(** X15.  What [init] acquires, [shutdown] releases: after an [init]
    that returned and any number of frames, [shutdown] returns, having
    torn down the Systems that [init] registered and then having
    destroyed the input system, destroyed the window and deleted the
    root that this [init] created, each once and in this order.  The
    scene manager is not released by the engine. *)
Theorem shutdown_releases_what_init_acquired
    (w w1 : World) (frames : list Z) :
  init w = Returns tt w1 ->
  exists w2 w3,
    forEach update frames w1 = Returns tt w2
    /\ shutdown w2 = Returns tt w3
    /\ new_events w2 w3
       = map EvSystemShutdown (teardown_order (systems (base w1)))
         ++ [ EvDestroyInputSystem (inputManager w1);
              EvWindowDestroy (window w1);
              EvDeleteRoot (root w1) ]
    /\ lifecycle (base w3) = ShutDown.
Proof.
  intros H. destruct (init_returns_inv w w1 H) as [L C].
  destruct (init_returns w L C) as [v [E [_ [B [I _]]]]].
  rewrite E in H. injection H as <-.
  destruct (frames_spec frames v) as [w2 [F [I2 [S2 L2]]]];
    [left; rewrite B; reflexivity|].
  assert (W : m_window (impl w2) <> nullptr)
    by (rewrite I2, I; discriminate).
  destruct (shutdown_spec w2 L2 W) as [w3 [D [T [_ B3]]]].
  exists w2, w3. split; [exact F|]. split; [exact D|]. split.
  - apply new_events_app. rewrite T, S2, I2.
    unfold inputManager, window, root. rewrite I.
    reflexivity.
  - rewrite B3. reflexivity.
Qed.

(** *** The manifest as loaded and the manifest as written *)










Lemma registers_without_constructing_refutes (a : Ptr) (evs : list Event) :
  registers_without_constructing a evs = true ->
  ~ constructs_every_system_it_registers evs.
Proof.
  unfold registers_without_constructing. intros B H.
  apply andb_true_iff in B. destruct B as [R C].
  apply existsb_exists in R. destruct R as [e [He Re]].
  destruct e; try discriminate Re.
  apply N.eqb_eq in Re.
  specialize (H s He).
  rewrite forallb_forall in C. specialize (C _ H). simpl in C.
  rewrite Re, N.eqb_refl in C. discriminate C.
Qed.

End Build.

(** ** The claims on the sample process

    A release build whose Systems are torn down in reverse order. *)

Lemma update_pumps_then_updates_every_system_witness :
  (0 <= 16)%Z
  /\ lifecycle (base (initialized_world false)) = Initialized
  /\ exists w',
      update 16 (initialized_world false) = Returns tt w'
      /\ filter is_EvSystemUpdate (new_events (initialized_world false) w')
         = map (fun s => EvSystemUpdate s 16)
               (systems (base (initialized_world false))).
Proof.
  split; [lia|]. split; [vm_compute; reflexivity|].
  destruct (update_pumps_then_updates_every_system 16
              (initialized_world false))
    as [w' [E [_ [_ [F _]]]]]; [lia | left; vm_compute; reflexivity |].
  exists w'. split; assumption.
Defined.

Lemma init_registers_the_pipeline_in_order_witness :
  config_resolves (host boot_world) = true
  /\ exists w',
      init false constructed_world = Returns tt w'
      /\ map sys_kind (systems (base w')) = pipeline_order
      /\ registered_before OgreCameraSystem OgreViewportSystem
           (systems (base w')).
Proof.
  split; [vm_compute; reflexivity|].
  pose proof (init_registers_the_pipeline_in_order false boot_world eq_refl)
    as H.
  cbv zeta in H.
  destruct H as [w' [E [_ [K [_ [_ [_ [CV _]]]]]]]].
  exists w'. repeat split; assumption.
Defined.

Lemma init_steps_in_order_witness :
  config_resolves (host boot_world) = true
  /\ exists w',
      init false constructed_world = Returns tt w'
      /\ new_events constructed_world w'
         = init_setup_events false nullptr (host constructed_world)
           ++ registration_events (m_keyboardSystem (impl constructed_world))
                (m_viewportSystem (impl constructed_world))
                (after_setupLog (host constructed_world))
           ++ map EvSystemInit
                (init_systems (m_keyboardSystem (impl constructed_world))
                   (m_viewportSystem (impl constructed_world))
                   (after_setupLog (host constructed_world))).
Proof.
  split; [vm_compute; reflexivity|].
  pose proof (init_steps_in_order false boot_world eq_refl) as H.
  cbv zeta in H.
  destruct H as [w' [E [_ T]]].
  exists w'. split; assumption.
Defined.

Lemma init_exits_with_success_before_registering_witness :
  restoreConfig_ok (host cancelled_world) = false
  /\ showConfigDialog_ok (host cancelled_world) = false
  /\ exists w',
      init false cancelled_world = Exits EXIT_SUCCESS w'
      /\ systems (base w') = [].
Proof.
  split; [vm_compute; reflexivity|]. split; [vm_compute; reflexivity|].
  destruct (init_exits_with_success_before_registering false
              cancelled_world eq_refl eq_refl)
    as [w' [E [_ [_ [_ F]]]]].
  exists w'. split; [exact E|].
  apply (F boot_world_cancelled). reflexivity.
Defined.

Lemma shutdown_tears_down_in_order_witness :
  lifecycle (base (initialized_world false)) = Initialized
  /\ m_window (impl (initialized_world false)) <> nullptr
  /\ exists w',
      shutdown true (initialized_world false) = Returns tt w'
      /\ new_events (initialized_world false) w'
         = map EvSystemShutdown
               (rev (systems (base (initialized_world false))))
           ++ [ EvDestroyInputSystem 7; EvWindowDestroy 5; EvDeleteRoot 4 ]
      /\ inputManager w' = nullptr
      /\ root w' = nullptr.
Proof.
  split; [vm_compute; reflexivity|]. split; [vm_compute; discriminate|].
  destruct (shutdown_tears_down_in_order true (initialized_world false))
    as [_ [w' [E [T [I R]]]]]; [left; vm_compute; reflexivity | vm_compute; discriminate |].
  exists w'. split; [exact E|]. split; [|split; assumption].
  revert T. vm_compute. intros T. exact T.
Defined.

Lemma lifecycle_calls_move_forward_or_fail_witness :
  in_order CallInit (lifecycle (base (initialized_world false))) = false
  /\ exists w',
      init false (initialized_world false) = Aborts LifecycleViolation w'
      /\ new_events (initialized_world false) w'
         = out_of_order_events false CallInit (initialized_world false)
      /\ base w' = base (initialized_world false).
Proof.
  assert (O : in_order CallInit
                (lifecycle (base (initialized_world false))) = false)
    by (vm_compute; reflexivity).
  split; [exact O|].
  destruct (lifecycle_calls_move_forward_or_fail false true CallInit
              (initialized_world false))
    as [_ H].
  destruct (H O) as [w' [E [T [B _]]]]. exists w'.
  split; [|split; [exact T | exact B]].
  revert E. vm_compute. intros E. exact E.
Defined.

Lemma close_during_update_sets_quit_and_completes_frame_witness :
  lifecycle (base (closing_world false)) = Initialized
  /\ In (m_window (impl (closing_world false)))
        (pending_close (host (closing_world false)))
  /\ In (m_window (impl (closing_world false)))
        (window_listeners (host (closing_world false)))
  /\ exists w',
      update 16 (closing_world false) = Returns tt w'
      /\ game_quit w' = true
      /\ filter is_EvSystemUpdate (new_events (closing_world false) w')
         = map (fun s => EvSystemUpdate s 16)
               (systems (base (closing_world false))).
Proof.
  split; [vm_compute; reflexivity|].
  split; [vm_compute; left; reflexivity|].
  split; [vm_compute; left; reflexivity|].
  destruct (close_during_update_sets_quit_and_completes_frame 16
              (closing_world false))
    as [w' [E [Q [_ [F _]]]]];
    [ left; vm_compute; reflexivity
    | vm_compute; left; reflexivity
    | vm_compute; left; reflexivity | ].
  exists w'. repeat split; assumption.
Defined.

(** C3, as the claim states it, fails on the sample process: [init]
    registers the keyboard System without constructing it; the
    constructor did, before the log was configured. *)
Lemma init_does_not_construct_the_keyboard_system :
  ~ constructs_every_system_it_registers
      (new_events constructed_world (initialized_world false)).
Proof.
  apply (registers_without_constructing_refutes 1).
  vm_compute. reflexivity.
Qed.

(** C6, as the claim states it, fails on the sample process: an [init]
    on the initialized engine whose configuration dialog is cancelled is
    out of order, yet it is not rejected as fatal; the process exits with
    the success code. *)
Lemma second_init_exits_instead_of_failing :
  in_order CallInit (lifecycle (base (reconfigured_world false))) = false
  /\ (exists w',
         run_call false true CallInit (reconfigured_world false)
         = Exits EXIT_SUCCESS w')
  /\ ~ rejected_as_fatal false true CallInit (reconfigured_world false).
Proof.
  split; [vm_compute; reflexivity|]. split.
  - eexists. vm_compute. reflexivity.
  - intros [f [w' H]]. vm_compute in H. discriminate H.
Qed.



(** ** The further properties on the sample process *)

Lemma init_leaves_four_new_handles_witness :
  init false constructed_world = Returns tt (initialized_world false)
  /\ NoDup [ root (initialized_world false);
             window (initialized_world false);
             sceneManager (initialized_world false);
             inputManager (initialized_world false) ]
  /\ In (window (initialized_world false))
        (window_listeners (host (initialized_world false))).
Proof.
  assert (H : init false constructed_world
              = Returns tt (initialized_world false))
    by (vm_compute; reflexivity).
  split; [exact H|].
  destruct (init_leaves_four_new_handles false constructed_world
              (initialized_world false) H)
    as [D [_ [_ [_ [_ L]]]]].
  split; assumption.
Defined.

Lemma shutdown_keeps_the_window_pointer_witness :
  shutdown true (initialized_world false)
  = Returns tt (world_of (shutdown true (initialized_world false)))
  /\ window (world_of (shutdown true (initialized_world false)))
     = window (initialized_world false)
  /\ window (world_of (shutdown true (initialized_world false))) <> nullptr.
Proof.
  assert (H : shutdown true (initialized_world false)
              = Returns tt
                  (world_of (shutdown true (initialized_world false))))
    by (vm_compute; reflexivity).
  split; [exact H|].
  destruct (shutdown_keeps_the_window_pointer true
              (initialized_world false)
              (world_of (shutdown true (initialized_world false))) H)
    as [K [N _]].
  split; assumption.
Defined.

Lemma loadConfig_shows_the_dialog_only_after_a_failed_restore_witness :
  m_root (impl (initialized_world false)) <> nullptr
  /\ exists w',
      loadConfig (initialized_world false)
      = (if config_resolves (host (initialized_world false))
         then Returns tt w' else Exits EXIT_SUCCESS w')
      /\ existsb is_EvShowConfigDialog
           (new_events (initialized_world false) w')
         = negb (restoreConfig_ok (host (initialized_world false))).
Proof.
  assert (R : m_root (impl (initialized_world false)) <> nullptr)
    by (vm_compute; discriminate).
  split; [exact R|].
  destruct (loadConfig_shows_the_dialog_only_after_a_failed_restore
              (initialized_world false) R)
    as [w' [E [_ [S _]]]].
  exists w'. split; assumption.
Defined.

Lemma setupInputManager_hands_over_the_window_handle_witness :
  m_window (impl (initialized_world false)) <> nullptr
  /\ exists w' text,
      setupInputManager (initialized_world false) = Returns tt w'
      /\ parse_handle text
         = Some (native_handle (host (initialized_world false))).
Proof.
  assert (W : m_window (impl (initialized_world false)) <> nullptr)
    by (vm_compute; discriminate).
  split; [exact W|].
  destruct (setupInputManager_hands_over_the_window_handle
              (initialized_world false) W)
    as [w' [text [E [_ [P _]]]]].
  exists w', text. split; assumption.
Defined.

Lemma update_raises_quit_only_for_its_own_window_witness :
  lifecycle (base (closing_world false)) = Initialized
  /\ (game_quit (world_of (update 16 (closing_world false))) = true
      <-> game_quit (closing_world false) = true
          \/ (In (m_window (impl (closing_world false)))
                 (pending_close (host (closing_world false)))
              /\ In (m_window (impl (closing_world false)))
                    (window_listeners (host (closing_world false))))).
Proof.
  assert (L : lifecycle (base (closing_world false)) = Initialized)
    by (vm_compute; reflexivity).
  split; [exact L|].
  exact (update_raises_quit_only_for_its_own_window 16
           (closing_world false) (or_introl L)).
Defined.

Lemma quit_flag_is_never_cleared_witness :
  game_quit (world_of (update 16 (closing_world false))) = true
  /\ game_quit
       (world_of
          (run_calls false true [CallUpdate 16; CallShutdown; CallInit]
             (world_of (update 16 (closing_world false)))))
     = true.
Proof.
  assert (Q : game_quit (world_of (update 16 (closing_world false))) = true)
    by (vm_compute; reflexivity).
  split; [exact Q|].
  exact (quit_flag_is_never_cleared false true
           [CallUpdate 16; CallShutdown; CallInit]
           (world_of (update 16 (closing_world false))) Q).
Defined.

Lemma destructor_without_shutdown_releases_only_the_root_witness :
  init false constructed_world = Returns tt (initialized_world false)
  /\ exists w2,
      OgreEngine_dtor (initialized_world false) = Returns tt w2
      /\ new_events (initialized_world false) w2
         = [EvDeleteRoot (root (initialized_world false))]
      /\ inputManager (initialized_world false) <> nullptr.
Proof.
  assert (H : init false constructed_world
              = Returns tt (initialized_world false))
    by (vm_compute; reflexivity).
  split; [exact H|].
  destruct (destructor_without_shutdown_releases_only_the_root false
              constructed_world (initialized_world false) H)
    as [w2 [D [T [I _]]]].
  exists w2. repeat split; assumption.
Defined.

Lemma destructor_after_shutdown_deletes_nothing_witness :
  shutdown true (initialized_world false)
  = Returns tt (world_of (shutdown true (initialized_world false)))
  /\ exists w2,
      OgreEngine_dtor (world_of (shutdown true (initialized_world false)))
      = Returns tt w2
      /\ new_events (world_of (shutdown true (initialized_world false))) w2
         = [].
Proof.
  assert (H : shutdown true (initialized_world false)
              = Returns tt
                  (world_of (shutdown true (initialized_world false))))
    by (vm_compute; reflexivity).
  split; [exact H|].
  exact (destructor_after_shutdown_deletes_nothing true
           (initialized_world false)
           (world_of (shutdown true (initialized_world false))) H).
Defined.

Lemma shutdown_releases_what_init_acquired_witness :
  init false constructed_world = Returns tt (initialized_world false)
  /\ exists w2 w3,
      forEach update [16%Z; 17%Z] (initialized_world false) = Returns tt w2
      /\ shutdown true w2 = Returns tt w3
      /\ lifecycle (base w3) = ShutDown.
Proof.
  assert (H : init false constructed_world
              = Returns tt (initialized_world false))
    by (vm_compute; reflexivity).
  split; [exact H|].
  destruct (shutdown_releases_what_init_acquired false true
              constructed_world (initialized_world false) [16%Z; 17%Z] H)
    as [w2 [w3 [F [D [_ L]]]]].
  exists w2, w3. repeat split; assumption.
Defined.

(** ** The sample process, event by event *)

Example sample_init_records :
  new_events constructed_world (initialized_world false)
  = [ EvNewLogManager 3; EvCreateLog 3 "default" true false false;
      EvNewRoot "plugins.cfg" 4; EvConfigLoad "resources.cfg";
      EvAddResourceLocation "media" "FileSystem" "General";
      EvAddResourceLocation "media/ogre.zip" "Zip" "General";
      EvAddResourceLocation "media/models" "FileSystem" "Models";
      EvRestoreConfig false; EvShowConfigDialog true;
      EvRootInitialise true "Thrive" 5; EvAddWindowEventListener 5;
      EvSetDefaultNumMipmaps 5; EvInitialiseAllResourceGroups;
      EvCreateSceneManager "DefaultSceneManager" 6;
      EvSetAmbientLight 6 (1 # 2) (1 # 2) (1 # 2);
      EvGetCustomAttribute 5 "WINDOW";
      EvCreateInputSystem [("WINDOW", "4242")] 7;
      EvAddSystem (mkSystemPtr KeyboardSystem 1);
      EvNewSystem (mkSystemPtr OgreAddSceneNodeSystem 8);
      EvAddSystem (mkSystemPtr OgreAddSceneNodeSystem 8);
      EvNewSystem (mkSystemPtr OgreUpdateSceneNodeSystem 9);
      EvAddSystem (mkSystemPtr OgreUpdateSceneNodeSystem 9);
      EvNewSystem (mkSystemPtr OgreCameraSystem 10);
      EvAddSystem (mkSystemPtr OgreCameraSystem 10);
      EvNewSystem (mkSystemPtr OgreLightSystem 11);
      EvAddSystem (mkSystemPtr OgreLightSystem 11);
      EvNewSystem (mkSystemPtr SkySystem 12);
      EvAddSystem (mkSystemPtr SkySystem 12);
      EvNewSystem (mkSystemPtr OgreEntitySystem 13);
      EvAddSystem (mkSystemPtr OgreEntitySystem 13);
      EvAddSystem (mkSystemPtr OgreViewportSystem 2);
      EvNewSystem (mkSystemPtr OgreRemoveSceneNodeSystem 14);
      EvAddSystem (mkSystemPtr OgreRemoveSceneNodeSystem 14);
      EvNewSystem (mkSystemPtr RenderSystem 15);
      EvAddSystem (mkSystemPtr RenderSystem 15);
      EvSystemInit (mkSystemPtr KeyboardSystem 1);
      EvSystemInit (mkSystemPtr OgreAddSceneNodeSystem 8);
      EvSystemInit (mkSystemPtr OgreUpdateSceneNodeSystem 9);
      EvSystemInit (mkSystemPtr OgreCameraSystem 10);
      EvSystemInit (mkSystemPtr OgreLightSystem 11);
      EvSystemInit (mkSystemPtr SkySystem 12);
      EvSystemInit (mkSystemPtr OgreEntitySystem 13);
      EvSystemInit (mkSystemPtr OgreViewportSystem 2);
      EvSystemInit (mkSystemPtr OgreRemoveSceneNodeSystem 14);
      EvSystemInit (mkSystemPtr RenderSystem 15) ].
Proof. vm_compute. reflexivity. Qed.

Example sample_frame_with_close_records :
  new_events (closing_world false)
    (world_of (update 16 (closing_world false)))
  = [ EvMessagePump; EvWindowClosing 5; EvGameQuit;
      EvSystemUpdate (mkSystemPtr KeyboardSystem 1) 16;
      EvSystemUpdate (mkSystemPtr OgreAddSceneNodeSystem 8) 16;
      EvSystemUpdate (mkSystemPtr OgreUpdateSceneNodeSystem 9) 16;
      EvSystemUpdate (mkSystemPtr OgreCameraSystem 10) 16;
      EvSystemUpdate (mkSystemPtr OgreLightSystem 11) 16;
      EvSystemUpdate (mkSystemPtr SkySystem 12) 16;
      EvSystemUpdate (mkSystemPtr OgreEntitySystem 13) 16;
      EvSystemUpdate (mkSystemPtr OgreViewportSystem 2) 16;
      EvSystemUpdate (mkSystemPtr OgreRemoveSceneNodeSystem 14) 16;
      EvSystemUpdate (mkSystemPtr RenderSystem 15) 16 ].
Proof. vm_compute. reflexivity. Qed.

Example sample_rejected_init_records :
  new_events (initialized_world false)
    (world_of (init false (initialized_world false)))
  = [ EvCreateLog 3 "default" true false false;
      EvNewRoot "plugins.cfg" 16; EvDeleteRoot 4;
      EvConfigLoad "resources.cfg";
      EvAddResourceLocation "media" "FileSystem" "General";
      EvAddResourceLocation "media/ogre.zip" "Zip" "General";
      EvAddResourceLocation "media/models" "FileSystem" "Models";
      EvRestoreConfig false; EvShowConfigDialog true;
      EvRootInitialise true "Thrive" 17; EvAddWindowEventListener 17;
      EvSetDefaultNumMipmaps 5; EvInitialiseAllResourceGroups;
      EvCreateSceneManager "DefaultSceneManager" 18;
      EvSetAmbientLight 18 (1 # 2) (1 # 2) (1 # 2);
      EvGetCustomAttribute 17 "WINDOW";
      EvCreateInputSystem [("WINDOW", "4242")] 19;
      EvAddSystem (mkSystemPtr KeyboardSystem 1);
      EvNewSystem (mkSystemPtr OgreAddSceneNodeSystem 20);
      EvAddSystem (mkSystemPtr OgreAddSceneNodeSystem 20);
      EvNewSystem (mkSystemPtr OgreUpdateSceneNodeSystem 21);
      EvAddSystem (mkSystemPtr OgreUpdateSceneNodeSystem 21);
      EvNewSystem (mkSystemPtr OgreCameraSystem 22);
      EvAddSystem (mkSystemPtr OgreCameraSystem 22);
      EvNewSystem (mkSystemPtr OgreLightSystem 23);
      EvAddSystem (mkSystemPtr OgreLightSystem 23);
      EvNewSystem (mkSystemPtr SkySystem 24);
      EvAddSystem (mkSystemPtr SkySystem 24);
      EvNewSystem (mkSystemPtr OgreEntitySystem 25);
      EvAddSystem (mkSystemPtr OgreEntitySystem 25);
      EvAddSystem (mkSystemPtr OgreViewportSystem 2);
      EvNewSystem (mkSystemPtr OgreRemoveSceneNodeSystem 26);
      EvAddSystem (mkSystemPtr OgreRemoveSceneNodeSystem 26);
      EvNewSystem (mkSystemPtr RenderSystem 27);
      EvAddSystem (mkSystemPtr RenderSystem 27) ].
Proof. vm_compute. reflexivity. Qed.

Example sample_second_init_records :
  new_events (reconfigured_world false)
    (world_of (init false (reconfigured_world false)))
  = [ EvCreateLog 3 "default" true false false;
      EvNewRoot "plugins.cfg" 16; EvDeleteRoot 4;
      EvConfigLoad "resources.cfg";
      EvAddResourceLocation "media" "FileSystem" "General";
      EvAddResourceLocation "media/ogre.zip" "Zip" "General";
      EvAddResourceLocation "media/models" "FileSystem" "Models";
      EvRestoreConfig false; EvShowConfigDialog false ].
Proof. vm_compute. reflexivity. Qed.
